(** * BirdScope: the freemium entitlement logic of the mobile client

    A shallow embedding of the client-side code that decides what a user
    may do: [checkSubscriptionStatus], [canAccessPremiumFeature],
    [getRemainingScans] and [updateUser] of the auth context, the scan
    bookkeeping inside [identifyBird] of the bird context, the capture
    handlers of the camera screen and the two gates of the sightings
    screen.  Around them: the session ([login], [register],
    [googleLogin], [logout], [loadStoredAuth]), the sightings and
    community lists of the bird context, [handleResponse] and the
    helpers of the API utilities, and the login, settings, sightings,
    community and upsell screens.

    React state is passed explicitly.  A callback created by a render
    sees the [user] of that render (its closure); what [setUser] writes
    becomes the [user] of the next render.  The functions below therefore
    take the closure's [user] as an argument and return what they write. *)

From Stdlib Require Import ZArith QArith_base Ascii Lia.
From stdpp Require Import base option list gmap strings pretty sorting.

Local Open Scope string_scope.
Local Open Scope Z_scope.

(** ** JavaScript values that the gates compute with *)

Module Js.

(** What a property read on the premium-feature table can yield, and
    what [canAccessPremiumFeature] can therefore return. *)
Inductive value :=
| Bool (b : bool)
| Undefined
| Builtin (name : string).  (* a member of Object.prototype *)

#[global] Instance value_eq_dec : EqDecision value.
Proof. solve_decision. Defined.

(** ToBoolean: functions and objects are truthy. *)
Definition truthy (v : value) : bool :=
  match v with
  | Bool b => b
  | Undefined => false
  | Builtin _ => true
  end.

(** [a || b] *)
Definition or (a b : value) : value := if truthy a then a else b.

(** [!a] *)
Definition not (a : value) : bool := negb (truthy a).

(** The property names every object literal inherits from
    Object.prototype (ECMAScript 19.1.3 and Annex B.2.2). *)
Definition Object_prototype : list string :=
  [ "constructor"; "hasOwnProperty"; "isPrototypeOf";
    "propertyIsEnumerable"; "toLocaleString"; "toString"; "valueOf";
    "__proto__"; "__defineGetter__"; "__defineSetter__";
    "__lookupGetter__"; "__lookupSetter__" ].

(** [obj[key]] for an object literal whose own properties are [own]:
    own properties first, then the prototype chain. *)
Definition get (own : gmap string bool) (key : string) : value :=
  match own !! key with
  | Some b => Bool b
  | None => if decide (key ∈ Object_prototype) then Builtin key else Undefined
  end.

(** How a call of an async function ends. *)
Inductive completion (A : Type) :=
| Returned (a : A)
| Thrown (message : string).
Arguments Returned {A} a.
Arguments Thrown {A} message.

End Js.

(** ** Dates

    The code compares [new Date().toDateString()] with the
    [toDateString()] of the stored time stamp.  [toDateString] prints the
    calendar day of an instant in the device's time zone, so two such
    strings are equal exactly when the local calendar days are.  The time
    zone is the device's: a parameter of the development. *)

Class LocalCalendar := toLocalDay : Z → Z.

(** The strings [today] and [lastScanDate] range over. *)
Inductive DateString :=
| NoDateString         (* '' *)
| InvalidDate          (* 'Invalid Date' *)
| DayString (day : Z). (* e.g. 'Tue Nov 03 2026' *)

#[global] Instance DateString_eq_dec : EqDecision DateString.
Proof. solve_decision. Defined.

(** The stored [last_scan_date] property. *)
Inductive StoredDate :=
| NoDate               (* undefined, null or '': falsy *)
| Unparsable           (* a non-empty string [Date] cannot parse *)
| IsoDate (t : Z).     (* toISOString of the instant t, in ms *)

#[global] Instance StoredDate_eq_dec : EqDecision StoredDate.
Proof. solve_decision. Defined.

(** [new Date(t).toDateString()] *)
Definition toDateString `{LocalCalendar} (t : Z) : DateString :=
  DayString (toLocalDay t).

(** ** The auth context *)

Module AuthContext.

(** The [user] object: the three properties the entitlement code
    reads, and the rest of the profile. *)
Record User := {
  subscription_plan : option string;
  scans_today : option Z;
  last_scan_date : StoredDate;
  profile : gmap string string
}.

(** The argument of [updateUser]: the properties the caller lists. *)
Record UserPatch := {
  set_subscription_plan : option string;
  set_scans_today : option Z;
  set_last_scan_date : option Z
}.

(** [{ ...user, ...updatedUserData }]; spreading [null] adds nothing. *)
Definition spread (user : option User) (p : UserPatch) : User :=
  {| subscription_plan :=
       match set_subscription_plan p with
       | Some s => Some s
       | None => user ≫= subscription_plan
       end;
     scans_today :=
       match set_scans_today p with
       | Some n => Some n
       | None => user ≫= scans_today
       end;
     last_scan_date :=
       match set_last_scan_date p with
       | Some t => IsoDate t
       | None => from_option last_scan_date NoDate user
       end;
     profile := from_option profile ∅ user |}.

(** [updateUser]: [user] is the closure's, [stored] tells whether
    SecureStore.setItemAsync resolved; when it rejects the catch block
    logs and [setUser] is not reached.  The result is the [user] state
    after the call, [current] being the state before it. *)
Definition updateUser (user : option User) (updatedUserData : UserPatch)
    (stored : bool) (current : option User) : option User :=
  if stored then Some (spread user updatedUserData) else current.

Definition checkSubscriptionStatus (user : option User) : string :=
  match user with
  | None => "free"
  | Some u =>
      match subscription_plan u with
      | None => "free"
      | Some s => if decide (s = "") then "free" else s
      end
  end.

(** The object literal [premiumFeatures]. *)
Definition premiumFeatures : gmap string bool :=
  <["unlimited_scans" := true]>
  (<["migration_maps" := true]>
  (<["full_audio" := true]>
  (<["detailed_info" := true]>
  (<["unlimited_sightings" := true]>
  (<["community_post" := true]>
  (<["offline_mode" := true]>
  (<["push_notifications" := true]> ∅))))))).

Definition canAccessPremiumFeature (user : option User) (feature : string)
    : Js.value :=
  let subscription := checkSubscriptionStatus user in
  if decide (subscription = "free") then Js.Bool false
  else Js.or (Js.get premiumFeatures feature) (Js.Bool false).

(** [user.last_scan_date ? new Date(user.last_scan_date).toDateString() : ''] *)
Definition lastScanDate `{LocalCalendar} (u : User) : DateString :=
  match last_scan_date u with
  | NoDate => NoDateString
  | Unparsable => InvalidDate
  | IsoDate t => toDateString t
  end.

(** [now] is the instant [new Date()] reads. *)
Definition getRemainingScans `{LocalCalendar} (user : option User)
    (now : Z) : Z :=
  match user with
  | None => 0
  | Some u =>
      let subscription := checkSubscriptionStatus user in
      if decide (subscription ≠ "free") then -1
      else
        let today := toDateString now in
        if decide (today ≠ lastScanDate u) then 3
        else Z.max 0 (3 - default 0 (scans_today u))
  end.

End AuthContext.

(** ** What the screens and contexts do to the outside *)

Inductive Effect :=
| ClassifierRequest (imageUri : string)   (* POST /api/identify-bird *)
| Alert (title : string)                  (* Alert.alert *)
| Navigate (screen : string)              (* navigation.navigate *)
| ShowError (message : string)            (* utils.showError *)
| ShowSuccess (message : string).         (* utils.showSuccess *)

#[global] Instance Effect_eq_dec : EqDecision Effect.
Proof. solve_decision. Defined.


(** ** The bird context *)

Module BirdContext.
Import AuthContext.

(** The body the classifier service answers with. *)
Inductive BirdResult := BirdData (json : string).

(** How [birdAPI.identifyBird] settles. *)
Inductive ApiResponse :=
| ApiResult (result : BirdResult)   (* 2xx, a JSON object *)
| ApiNull                           (* 2xx, a falsy body *)
| ApiRejects (message : string).    (* fetch fails or handleResponse throws *)

(** What one call of [identifyBird] meets: the service's answer, the
    two clock readings of the bookkeeping block and the outcome of
    SecureStore. *)
Record Env := {
  response : ApiResponse;
  clock_today : Z;    (* new Date() of [today] *)
  clock_stamp : Z;    (* new Date() of [last_scan_date] *)
  stored : bool
}.

(** [!authToken]: null and '' are falsy. *)
Definition noToken (authToken : option string) : bool :=
  match authToken with
  | None => true
  | Some t => bool_decide (t = "")
  end.

(** The block under "Update user's scan count". *)
Definition countScan `{LocalCalendar} (user : option User) (env : Env)
    (current : option User) : option User :=
  match user with
  | None => current
  | Some u =>
      let today := toDateString (clock_today env) in
      if decide (today ≠ lastScanDate u) then
        updateUser user
          {| set_subscription_plan := None;
             set_scans_today := Some 1;
             set_last_scan_date := Some (clock_stamp env) |}
          (stored env) current
      else
        updateUser user
          {| set_subscription_plan := None;
             set_scans_today := Some (default 0 (scans_today u) + 1);
             set_last_scan_date := Some (clock_stamp env) |}
          (stored env) current
  end.

(** [identifyBird(imageUri)].  [authToken] and [user] are the
    closure's; [current] is the [user] state when the call is made.
    The result is how the call completes, the [user] state it leaves
    and the requests it sent.  [setCurrentBird], [setIsIdentifying]
    and the optional location field of the form are display data and
    are left out. *)
Definition identifyBird `{LocalCalendar} (authToken : option string)
    (user : option User) (imageUri : string) (env : Env)
    (current : option User)
    : Js.completion BirdResult * option User * list Effect :=
  if noToken authToken then
    (Js.Thrown "Authentication required", current, [])
  else
    match response env with
    | ApiRejects message =>
        (Js.Thrown message, current, [ClassifierRequest imageUri])
    | ApiNull =>
        (Js.Thrown "Failed to identify bird", current,
         [ClassifierRequest imageUri])
    | ApiResult result =>
        (Js.Returned result, countScan user env current,
         [ClassifierRequest imageUri])
    end.

End BirdContext.

(** ** The camera screen *)

Module CameraScreen.
Import AuthContext BirdContext.

(** The state the handlers read and write: the two contexts' [user]
    and [authToken], the screen's [capturedImage], and whether
    [cameraRef.current && isCameraReady] holds. *)
Record App := {
  user : option User;
  authToken : option string;
  capturedImage : option string;
  cameraReady : bool
}.

Definition withImage (app : App) (image : option string) : App :=
  {| user := user app; authToken := authToken app;
     capturedImage := image; cameraReady := cameraReady app |}.

Definition withUser (app : App) (u : option User) : App :=
  {| user := u; authToken := authToken app;
     capturedImage := capturedImage app; cameraReady := cameraReady app |}.

(** [takePicture]; [photo] is the uri [takePictureAsync] resolves
    with, [None] when it rejects. *)
Definition takePicture `{LocalCalendar} (app : App) (now : Z)
    (photo : option string) : App * list Effect :=
  if negb (cameraReady app) then (app, [])
  else
    let remainingScans := getRemainingScans (user app) now in
    if decide (remainingScans = 0) then (app, [Alert "Daily Limit Reached"])
    else
      match photo with
      | Some uri => (withImage app (Some uri), [])
      | None => (app, [ShowError "Failed to take picture. Please try again."])
      end.

(** How the image library settles. *)
Inductive Picked :=
| Asset (uri : string)
| Canceled
| PickerRejects.

Definition pickImage `{LocalCalendar} (app : App) (now : Z)
    (picked : Picked) : App * list Effect :=
  let remainingScans := getRemainingScans (user app) now in
  if decide (remainingScans = 0) then (app, [Alert "Daily Limit Reached"])
  else
    match picked with
    | Asset uri => (withImage app (Some uri), [])
    | Canceled => (app, [])
    | PickerRejects =>
        (app, [ShowError "Failed to pick image. Please try again."])
    end.

(** [error.message.includes(needle)] *)
Fixpoint includes (message needle : string) : bool :=
  String.prefix needle message ||
  match message with
  | String.EmptyString => false
  | String.String _ rest => includes rest needle
  end.

(** [identifyBirdPhoto]: the screen's [identifyBird] is the one of the
    current render, so its closure holds the current [user]. *)
Definition identifyBirdPhoto `{LocalCalendar} (app : App) (env : Env)
    : App * list Effect :=
  match capturedImage app with
  | None => (app, [])
  | Some uri =>
      match identifyBird (authToken app) (user app) uri env (user app) with
      | (Js.Returned _, user', sent) =>
          (withImage (withUser app user') None,
           (sent ++ [Navigate "ScanResults"])%list)
      | (Js.Thrown message, user', sent) =>
          if includes message "Daily scan limit reached" then
            (withUser app user', (sent ++ [Alert "Upgrade to Premium"])%list)
          else
            (withUser app user',
             (sent ++ [ShowError (if decide (message = "")
                                  then "Failed to identify bird"
                                  else message)])%list)
      end
  end.

Definition retakePicture (app : App) : App * list Effect :=
  (withImage app None, []).

(** What the user can do on the screen, with what the device and the
    service answer. *)
Inductive Event :=
| TakePicture (now : Z) (photo : option string)
| PickImage (now : Z) (picked : Picked)
| IdentifyBirdPhoto (env : Env)
| RetakePicture.

Definition handle `{LocalCalendar} (app : App) (ev : Event)
    : App * list Effect :=
  match ev with
  | TakePicture now photo => takePicture app now photo
  | PickImage now picked => pickImage app now picked
  | IdentifyBirdPhoto env => identifyBirdPhoto app env
  | RetakePicture => retakePicture app
  end.

(** A session on the screen: the handlers run one after the other,
    each on the state the previous one left. *)
Fixpoint run `{LocalCalendar} (app : App) (evs : list Event)
    : App * list Effect :=
  match evs with
  | [] => (app, [])
  | ev :: rest =>
      let '(app1, out1) := handle app ev in
      let '(app2, out2) := run app1 rest in
      (app2, (out1 ++ out2)%list)
  end.

End CameraScreen.

(** ** The sightings screen *)

Module MySightingsScreen.
Import AuthContext.

(** [sightings] is the list the bird context holds; only its length
    is read. *)
Definition hasLimitReached {A} (user : option User) (sightings : list A)
    : bool :=
  Js.not (canAccessPremiumFeature user "unlimited_sightings")
  && bool_decide (5 ≤ length sightings)%nat.

Definition exportSightings (user : option User) : list Effect :=
  if Js.not (canAccessPremiumFeature user "unlimited_sightings") then
    [Navigate "PremiumUpsell"]
  else
    [ShowSuccess "Sightings exported to your downloads folder"].

End MySightingsScreen.

(** ** The ledger as the code reads it, and the scenarios the properties speak of *)

Module Ledger.
Import AuthContext BirdContext CameraScreen.

(** The tier of a session. *)
Definition isFree (user : option User) : Prop :=
  checkSubscriptionStatus user = "free".

Definition isPremium (user : option User) : Prop :=
  checkSubscriptionStatus user = "premium_monthly"
  ∨ checkSubscriptionStatus user = "premium_yearly".

(** The names listed in [premiumFeatures]. *)
Definition enumeratedFeatures : list string :=
  [ "unlimited_scans"; "migration_maps"; "full_audio"; "detailed_info";
    "unlimited_sightings"; "community_post"; "offline_mode";
    "push_notifications" ].

(** The count stored for the calendar day [day]: [scans_today] when
    [last_scan_date] falls on that day, and 0 when there is no entry
    for it. *)
Definition todayCount `{LocalCalendar} (user : option User) (day : Z) : Z :=
  match user with
  | None => 0
  | Some u =>
      if decide (lastScanDate u = DayString day)
      then default 0 (scans_today u)
      else 0
  end.

(** What the bookkeeping block writes when the store accepts it. *)
Definition counted `{LocalCalendar} (u : User) (env : Env) : User :=
  {| subscription_plan := subscription_plan u;
     scans_today :=
       Some (if decide (toDateString (clock_today env) ≠ lastScanDate u)
             then 1 else default 0 (scans_today u) + 1);
     last_scan_date := IsoDate (clock_stamp env);
     profile := profile u |}.

(** The service identifies the bird and the device stores the new
    user data. *)
Definition succeeds (env : Env) : Prop :=
  (∃ result, response env = ApiResult result) ∧ stored env = true.

(** Both clock readings of the bookkeeping fall on [day]. *)
Definition envOnDay `{LocalCalendar} (day : Z) (env : Env) : Prop :=
  toLocalDay (clock_today env) = day ∧ toLocalDay (clock_stamp env) = day.


Definition eventOnDay `{LocalCalendar} (day : Z) (ev : Event) : Prop :=
  match ev with
  | TakePicture now _ => toLocalDay now = day
  | PickImage now _ => toLocalDay now = day
  | IdentifyBirdPhoto env => envOnDay day env
  | RetakePicture => True
  end.

(** A call of [identifyBird] on [day] that the service answers and
    the store accepts. *)
Definition goodCall `{LocalCalendar} (day : Z) (call : string * Env) : Prop :=
  envOnDay day call.2 ∧ succeeds call.2.

(** Successive calls of [identifyBird], each made from the render
    that follows the previous one: the closure holds the current
    [user]. *)
Fixpoint successive `{LocalCalendar} (authToken : option string)
    (calls : list (string * Env)) (current : option User)
    : list (Js.completion BirdResult) * option User * list Effect :=
  match calls with
  | [] => ([], current, [])
  | (imageUri, env) :: rest =>
      let '(c, user1, sent1) :=
        identifyBird authToken current imageUri env current in
      let '(cs, user2, sent2) := successive authToken rest user1 in
      (c :: cs, user2, (sent1 ++ sent2)%list)
  end.

(** Simultaneous calls of [identifyBird]: all are made from one
    render, so all hold that render's [user], and they resume in the
    order of [calls]. *)
Fixpoint simultaneous `{LocalCalendar} (authToken : option string)
    (user : option User) (calls : list (string * Env))
    (current : option User)
    : list (Js.completion BirdResult) * option User * list Effect :=
  match calls with
  | [] => ([], current, [])
  | (imageUri, env) :: rest =>
      let '(c, user1, sent1) :=
        identifyBird authToken user imageUri env current in
      let '(cs, user2, sent2) := simultaneous authToken user rest user1 in
      (c :: cs, user2, (sent1 ++ sent2)%list)
  end.

Definition isReturned {A} (c : Js.completion A) : bool :=
  match c with Js.Returned _ => true | Js.Thrown _ => false end.

(** One scan on the camera screen: an image taken with the camera or
    picked from the library, then the Identify button. *)
Inductive Source := Camera | Library.

Record Attempt := {
  source : Source;
  capture_at : Z;
  photo : string;
  answer : Env
}.

Definition captureEvent (a : Attempt) : Event :=
  match source a with
  | Camera => TakePicture (capture_at a) (Some (photo a))
  | Library => PickImage (capture_at a) (Asset (photo a))
  end.

Definition attemptEvents (a : Attempt) : list Event :=
  [ captureEvent a; IdentifyBirdPhoto (answer a) ].

Definition scanAttempt `{LocalCalendar} (app : App) (a : Attempt)
    : App * list Effect :=
  run app (attemptEvents a).

Fixpoint scanAttempts `{LocalCalendar} (app : App) (l : list Attempt)
    : App :=
  match l with
  | [] => app
  | a :: rest => scanAttempts (scanAttempt app a).1 rest
  end.

Definition goodAttempt `{LocalCalendar} (day : Z) (a : Attempt) : Prop :=
  toLocalDay (capture_at a) = day
  ∧ envOnDay day (answer a)
  ∧ succeeds (answer a).

(** The screen is ready for a capture: signed in, camera ready, no
    image pending. *)
Definition ready (app : App) : Prop :=
  noToken (authToken app) = false
  ∧ cameraReady app = true
  ∧ capturedImage app = None.

(** *** Concrete data for the examples *)

(** A device on UTC: the day number of an instant in milliseconds. *)
Definition utc : LocalCalendar := λ t, t `div` 86400000.

Definition newUser (plan : option string) : User :=
  {| subscription_plan := plan; scans_today := None;
     last_scan_date := NoDate; profile := ∅ |}.

(** A user whose ledger says [n] scans at the instant [t]. *)
Definition userWith (plan : option string) (n t : Z) : User :=
  {| subscription_plan := plan; scans_today := Some n;
     last_scan_date := IsoDate t; profile := ∅ |}.

Definition robin : BirdResult := BirdData "European Robin".

(** The service answers and the store works, at the instant [t]. *)
Definition okAt (t : Z) : Env :=
  {| response := ApiResult robin; clock_today := t;
     clock_stamp := t + 1; stored := true |}.

Definition attemptAt (t : Z) : Attempt :=
  {| source := Camera; capture_at := t; photo := "file:///photo.jpg";
     answer := okAt (t + 5) |}.

Definition pickAt (t : Z) : Attempt :=
  {| source := Library; capture_at := t; photo := "file:///library.jpg";
     answer := okAt (t + 5) |}.

Definition signedIn (u : User) : App :=
  {| user := Some u; authToken := Some "token";
     capturedImage := None; cameraReady := true |}.

End Ledger.

(** ** The session: signing in, signing out, starting up *)

Module AuthSession.
Import AuthContext.

(** [a || b] on strings: the empty string is falsy. *)
Definition orElse (a b : string) : string := if decide (a = "") then b else a.

(** The text SecureStore holds under 'userData', by what
    [loadStoredAuth] makes of it.  The text is tested for truthiness
    first and handed to [JSON.parse] next.  A value that parses is
    the new [user]: when it is falsy ([null], [false], [0], the empty
    string literal) every test of [user] in the code takes it for no
    user; when it is truthy it is read through the properties of
    [User], all of them missing on a value that is no object.  The
    app itself only writes the JSON text of a user object. *)
Inductive UserData :=
| Json (u : User)    (* parses to a truthy value *)
| JsonFalsy          (* parses to a falsy value, as the text null *)
| Garbled            (* not empty, and JSON.parse rejects it *)
| EmptyText.         (* '': falsy *)

(** The two items the app keeps in SecureStore. *)
Record Store := {
  authTokenItem : option string;   (* 'authToken' *)
  userDataItem : option UserData   (* 'userData' *)
}.

(** The state of the auth provider. *)
Record Auth := {
  user : option User;
  authToken : option string;
  isLoading : bool
}.

(** The provider as it is mounted. *)
Definition mounted : Auth :=
  {| user := None; authToken := None; isLoading := true |}.

(** [isAuthenticated: !!user] *)
Definition isAuthenticated (a : Auth) : bool := bool_decide (is_Some (user a)).

(** How a call to SecureStore settles. *)
Inductive IO :=
| Done
| Rejects (message : string).

(** How a call to the auth API settles: the object the server answered
    with, of which the [token] and [user] fields are read, or an error
    ([fetch] failed, [handleResponse] threw, or the body is not an
    object and reading its fields throws). *)
Inductive AuthResponse :=
| Answered (token : option string) (user : option User)
| Refused (message : string).

(** What [login], [register] and [googleLogin] return. *)
Record Outcome := {
  success : bool;
  error : option string
}.

Definition succeeded : Outcome := {| success := true; error := None |}.
Definition failed (message : string) : Outcome :=
  {| success := false; error := Some message |}.

Definition loaded (a : Auth) : Auth :=
  {| user := user a; authToken := authToken a; isLoading := false |}.

(** The body shared by [login], [register] and [googleLogin], which
    differ in the request they send and in two messages: [invalid]
    when the answer lacks a token or a user, [fallback] when the error
    caught has no message.  [w1] and [w2] are the outcomes of the two
    [SecureStore.setItemAsync] calls; a call that rejects leaves its
    item as it was. *)
Definition signIn (invalid fallback : string) (response : AuthResponse)
    (w1 w2 : IO) (a : Auth) (s : Store) : Outcome * Auth * Store :=
  match response with
  | Refused message => (failed (orElse message fallback), loaded a, s)
  | Answered (Some token) (Some u) =>
      if decide (token = "") then (failed invalid, loaded a, s)
      else
        match w1 with
        | Rejects message => (failed (orElse message fallback), loaded a, s)
        | Done =>
            let s1 := {| authTokenItem := Some token;
                         userDataItem := userDataItem s |} in
            match w2 with
            | Rejects message =>
                (failed (orElse message fallback), loaded a, s1)
            | Done =>
                (succeeded,
                 {| user := Some u; authToken := Some token;
                    isLoading := false |},
                 {| authTokenItem := Some token;
                    userDataItem := Some (Json u) |})
            end
        end
  | Answered _ _ => (failed invalid, loaded a, s)
  end.

Definition login := signIn "Invalid response from server" "Login failed".
Definition register := signIn "Registration failed" "Registration failed".
Definition googleLogin := signIn "Google login failed" "Google login failed".

(** The three ways to sign in. *)
Definition signIns := [login; register; googleLogin].


(** [loadStoredAuth], run once when the provider mounts; [r1] and [r2]
    are the outcomes of the two [SecureStore.getItemAsync] calls.
    [if (token && userData)] passes when both texts are there and not
    empty.  [setAuthToken(token)] runs before [JSON.parse(userData)]
    is evaluated, so a text that does not parse leaves the token set
    and the user as it was, while a text that parses to a falsy value
    sets the token and no user. *)
Definition loadStoredAuth (r1 r2 : IO) (s : Store) (a : Auth) : Auth :=
  match r1, r2 with
  | Done, Done =>
      match authTokenItem s, userDataItem s with
      | Some token, Some data =>
          if decide (token = "") then loaded a
          else
            match data with
            | EmptyText => loaded a
            | Json u =>
                {| user := Some u; authToken := Some token;
                   isLoading := false |}
            | JsonFalsy =>
                {| user := None; authToken := Some token;
                   isLoading := false |}
            | Garbled =>
                {| user := user a; authToken := Some token;
                   isLoading := false |}
            end
      | _, _ => loaded a
      end
  | _, _ => loaded a
  end.

(** The app is closed and opened again: the provider mounts anew and
    reads the store. *)
Definition relaunch (s : Store) : Auth := loadStoredAuth Done Done s mounted.

(** Examples. *)
Definition emptyStore : Store :=
  {| authTokenItem := None; userDataItem := None |}.

End AuthSession.

(** ** The bird context: sightings and the community feed *)

Module BirdLists.
Import AuthContext BirdContext.

(** A sighting, with the properties the app reads.  [timestamp] is the
    instant the stored date string denotes, [confidence] the number the
    classifier gave. *)
Record Sighting := {
  sighting_id : string;        (* id *)
  bird_id : string;
  common_name : string;
  scientific_name : string;
  timestamp : Z;
  confidence : Q
}.

(** A post of the community feed. *)
Record Post := {
  post_id : string;            (* id *)
  likes : Z;
  user_name : string;
  caption : string;
  post_timestamp : Z
}.

(** The requests these actions send. *)
Inductive Request :=
| DeleteSightingRequest (sightingId token : string)
| CommunityFeedRequest (limit offset : Z)
| CommunityPostRequest (birdId caption : string) (location : option string)
    (token : string)
| LikePostRequest (postId token : string).

(** The token a request carries. *)
Definition bearer (authToken : option string) : string := default "" authToken.

(** [deleteSighting] *)
Definition deleteSighting (authToken : option string) (sightingId : string)
    (response : Js.completion unit) (sightings : list Sighting)
    : bool * list Sighting * list Request :=
  if noToken authToken then (false, sightings, [])
  else
    match response with
    | Js.Returned _ =>
        (true, filter (λ s, sighting_id s ≠ sightingId) sightings,
         [DeleteSightingRequest sightingId (bearer authToken)])
    | Js.Thrown _ =>
        (false, sightings,
         [DeleteSightingRequest sightingId (bearer authToken)])
    end.

(** The body of a feed answer. *)
Record FeedBody := {
  posts : option (list Post);
  total : Z
}.

(** [getCommunityFeed(limit, offset)] *)
Definition getCommunityFeed (limit offset : Z)
    (response : Js.completion FeedBody) (communityFeed : list Post)
    : FeedBody * list Post * list Request :=
  match response with
  | Js.Returned body =>
      (body,
       if decide (offset = 0) then default [] (posts body)
       else (communityFeed ++ default [] (posts body))%list,
       [CommunityFeedRequest limit offset])
  | Js.Thrown _ =>
      ({| posts := Some []; total := 0 |}, communityFeed,
       [CommunityFeedRequest limit offset])
  end.

(** [createCommunityPost]; the body's [post] field may be missing. *)
Definition createCommunityPost (authToken : option string)
    (birdId caption : string) (location : option string)
    (response : Js.completion (option Post)) (communityFeed : list Post)
    : Js.completion Post * list Post * list Request :=
  if noToken authToken then
    (Js.Thrown "Authentication required", communityFeed, [])
  else
    let sent := [CommunityPostRequest birdId caption
                   (match location with
                    | Some l => if decide (l = "") then None else Some l
                    | None => None
                    end)
                   (bearer authToken)] in
    match response with
    | Js.Returned (Some post) => (Js.Returned post, post :: communityFeed, sent)
    | Js.Returned None => (Js.Thrown "Failed to create post", communityFeed, sent)
    | Js.Thrown message => (Js.Thrown message, communityFeed, sent)
    end.

(** [likePost]; the body's [likes] field may be missing. *)
Definition likePost (authToken : option string) (postId : string)
    (response : Js.completion (option Z)) (communityFeed : list Post)
    : bool * list Post * list Request :=
  if noToken authToken then (false, communityFeed, [])
  else
    match response with
    | Js.Returned (Some n) =>
        (true,
         (λ post, if decide (post_id post = postId)
                  then {| post_id := post_id post; likes := n;
                          user_name := user_name post;
                          caption := caption post;
                          post_timestamp := post_timestamp post |}
                  else post) <$> communityFeed,
         [LikePostRequest postId (bearer authToken)])
    | Js.Returned None =>
        (false, communityFeed, [LikePostRequest postId (bearer authToken)])
    | Js.Thrown _ =>
        (false, communityFeed, [LikePostRequest postId (bearer authToken)])
    end.

(** The feed screen's [loadFeed] and [loadMorePosts]; the latter asks
    for the posts after those its render holds. *)
Definition loadFeed := getCommunityFeed 20 0.

Definition loadMorePosts (response : Js.completion FeedBody)
    (communityFeed : list Post) :=
  getCommunityFeed 20 (Z.of_nat (length communityFeed)) response communityFeed.

(** The feed is opened and scrolled: [loadFeed], then [loadMorePosts]
    once for every further answer. *)
Fixpoint scroll (answers : list (Js.completion FeedBody))
    (communityFeed : list Post) : list Post * list Request :=
  match answers with
  | [] => (communityFeed, [])
  | response :: rest =>
      let '(_, feed1, sent1) := loadMorePosts response communityFeed in
      let '(feed2, sent2) := scroll rest feed1 in
      (feed2, (sent1 ++ sent2)%list)
  end.

Definition openFeed (first : Js.completion FeedBody)
    (answers : list (Js.completion FeedBody)) (communityFeed : list Post)
    : list Post * list Request :=
  let '(_, feed1, sent1) := loadFeed first communityFeed in
  let '(feed2, sent2) := scroll answers feed1 in
  (feed2, (sent1 ++ sent2)%list).

(** The posts an answer brings: none when the request failed or the
    body has no [posts]. *)
Definition payload (response : Js.completion FeedBody) : list Post :=
  match response with
  | Js.Returned body => default [] (posts body)
  | Js.Thrown _ => []
  end.

(** An answer that carries the page [page]. *)
Definition page (l : list Post) : Js.completion FeedBody :=
  Js.Returned {| posts := Some l; total := Z.of_nat (length l) |}.

End BirdLists.

(** ** Text: code units, white space, regular expressions

    A string is the sequence of its code units; the [ascii] values
    stand for the code units below 256. *)

Module Text.

Definition codeUnits (s : string) : list ascii := String.list_ascii_of_string s.

(** White space as [\s] and [trim] see it: tab, line feed, vertical
    tab, form feed, carriage return, space and no-break space (the
    other white space characters lie above 255). *)
Definition isWhiteSpace (c : ascii) : bool :=
  bool_decide (nat_of_ascii c ∈ [9; 10; 11; 12; 13; 32; 160]%nat).

(** [s.trim()] *)
Fixpoint trimStart (l : list ascii) : list ascii :=
  match l with
  | c :: rest => if isWhiteSpace c then trimStart rest else l
  | [] => []
  end.

Definition trim (s : string) : string :=
  String.string_of_list_ascii
    (reverse (trimStart (reverse (trimStart (codeUnits s))))).

(** The regular expressions the code uses are built from character
    classes, sequence and [+]; matching by derivatives also needs
    alternatives and [*]. *)
Inductive regex :=
| Never
| Empty
| Class (p : ascii → bool)
| Seq (r1 r2 : regex)
| Alt (r1 r2 : regex)
| Star (r : regex).

Definition Plus (r : regex) : regex := Seq r (Star r).

(** The strings a regular expression denotes. *)
Inductive lang : regex → list ascii → Prop :=
| lang_empty : lang Empty []
| lang_class p c : p c = true → lang (Class p) [c]
| lang_seq r1 r2 s1 s2 :
    lang r1 s1 → lang r2 s2 → lang (Seq r1 r2) (s1 ++ s2)%list
| lang_alt_l r1 r2 s : lang r1 s → lang (Alt r1 r2) s
| lang_alt_r r1 r2 s : lang r2 s → lang (Alt r1 r2) s
| lang_star_nil r : lang (Star r) []
| lang_star_more r s1 s2 :
    lang r s1 → lang (Star r) s2 → lang (Star r) (s1 ++ s2)%list.

Fixpoint nullable (r : regex) : bool :=
  match r with
  | Never => false
  | Empty => true
  | Class _ => false
  | Seq r1 r2 => nullable r1 && nullable r2
  | Alt r1 r2 => nullable r1 || nullable r2
  | Star _ => true
  end.

Fixpoint derive (c : ascii) (r : regex) : regex :=
  match r with
  | Never => Never
  | Empty => Never
  | Class p => if p c then Empty else Never
  | Seq r1 r2 =>
      if nullable r1 then Alt (Seq (derive c r1) r2) (derive c r2)
      else Seq (derive c r1) r2
  | Alt r1 r2 => Alt (derive c r1) (derive c r2)
  | Star r1 => Seq (derive c r1) (Star r1)
  end.

(** [/^r$/.test(s)]: the whole string matches. *)
Fixpoint test (r : regex) (s : list ascii) : bool :=
  match s with
  | [] => nullable r
  | c :: rest => test (derive c r) rest
  end.

(** The class [[^\s@]]. *)
Definition notSpaceNorAt (c : ascii) : bool :=
  negb (isWhiteSpace c) && negb (Ascii.eqb c "@"%char).

Definition only (x : ascii) (c : ascii) : bool := Ascii.eqb c x.

(** [/^[^\s@]+@[^\s@]+\.[^\s@]+$/] *)
Definition emailRegex : regex :=
  Seq (Plus (Class notSpaceNorAt))
    (Seq (Class (only "@"%char))
       (Seq (Plus (Class notSpaceNorAt))
          (Seq (Class (only "."%char))
             (Plus (Class notSpaceNorAt))))).

End Text.

(** ** The API helpers *)

Module Api.
Import AuthContext BirdContext.

(** What [fetch] resolved with, as [handleResponse] reads it: an
    answer that is ok with its parsed body, an answer that is ok whose
    body does not parse, or an answer that is not ok with the [detail]
    and [message] of its error body (both missing when that body does
    not parse). *)
Inductive Http (A : Type) :=
| Ok (body : A)
| OkUnparsable (syntaxError : string)
| NotOk (status : Z) (detail message : option string).
Arguments Ok {A} body.
Arguments OkUnparsable {A} syntaxError.
Arguments NotOk {A} status detail message.

(** [a || b] where [a] may be missing or empty. *)
Definition orElse (a : option string) (b : string) : string :=
  match a with
  | Some s => if decide (s = "") then b else s
  | None => b
  end.

Definition handleResponse {A} (response : Http A) : Js.completion A :=
  match response with
  | Ok body => Js.Returned body
  | OkUnparsable syntaxError => Js.Thrown syntaxError
  | NotOk status detail message =>
      Js.Thrown (orElse detail (orElse message ("HTTP " +:+ pretty status)))
  end.

(** How [fetch] settles. *)
Inductive Fetched (A : Type) :=
| Responds (response : Http A)
| NetworkFails (message : string).
Arguments Responds {A} response.
Arguments NetworkFails {A} message.

(** [birdAPI.identifyBird]: the request, then [handleResponse]; the
    body may be [null]. *)
Definition identifyBird (fetched : Fetched (option BirdResult)) : ApiResponse :=
  match fetched with
  | NetworkFails message => ApiRejects message
  | Responds response =>
      match handleResponse response with
      | Js.Returned (Some result) => ApiResult result
      | Js.Returned None => ApiNull
      | Js.Thrown message => ApiRejects message
      end
  end.

(** [utils.isValidEmail] *)
Definition isValidEmail (email : string) : bool :=
  Text.test Text.emailRegex (Text.codeUnits email).

(** [utils.formatPlanName] *)
Definition formatPlanName (planId : string) : string :=
  if decide (planId = "free") then "Free Plan"
  else if decide (planId = "premium_monthly") then "Premium Monthly"
  else if decide (planId = "premium_yearly") then "Premium Yearly"
  else "Unknown Plan".

End Api.

(** ** What the JavaScript engine and its locale decide

    Case mapping, collation and the local date format are the
    engine's: parameters of the development. *)

Class Engine := {
  toLowerCase : string → string;
  (* the sign of a.localeCompare(b) *)
  localeCompare : string → string → comparison;
  (* new Date(t).toLocaleDateString() *)
  toLocaleDateString : Z → string
}.

(** ** The sightings screen: search, period, order and statistics *)

Module SightingsList.
Import BirdLists.

(** [7 * 24 * 60 * 60 * 1000] and [30 * 24 * 60 * 60 * 1000] *)
Definition week : Z := 7 * 24 * 60 * 60 * 1000.
Definition month : Z := 30 * 24 * 60 * 60 * 1000.

(** The test of the search filter. *)
Definition matchesQuery `{Engine} (searchQuery : string) (s : Sighting) : bool :=
  CameraScreen.includes (toLowerCase (common_name s)) (toLowerCase searchQuery)
  || CameraScreen.includes (toLowerCase (scientific_name s))
       (toLowerCase searchQuery).

(** [new Date(sighting.timestamp) >= new Date(now - span)] *)
Definition since (now span : Z) (s : Sighting) : bool :=
  bool_decide (now - span ≤ timestamp s).

(** The sign of what the comparator of [filtered.sort] returns. *)
Definition compareBy `{Engine} (sortBy : string) (a b : Sighting) : comparison :=
  if decide (sortBy = "name") then
    localeCompare (common_name a) (common_name b)
  else if decide (sortBy = "confidence") then
    Qcompare (confidence b) (confidence a)
  else
    Z.compare (timestamp b) (timestamp a).

(** [a] may stand before [b]: the comparator does not return a
    positive number for them. *)
Definition mayPrecede {A} (compare : A → A → comparison) (a b : A) : Prop :=
  compare a b ≠ Gt.

(** [array.sort(compare)]: the elements in an order the comparator
    accepts. *)
Definition sort {A} (compare : A → A → comparison) (l : list A) : list A :=
  merge_sort (mayPrecede compare) l.

(** [filterAndSortSightings]; [now] is the instant [new Date()]
    reads.  The result is what [setFilteredSightings] receives. *)
Definition filterAndSortSightings `{Engine} (sightings : list Sighting)
    (searchQuery filterBy sortBy : string) (now : Z) : list Sighting :=
  let filtered := sightings in
  let filtered :=
    if decide (searchQuery = "") then filtered
    else filter (λ s, matchesQuery searchQuery s = true) filtered in
  let filtered :=
    if decide (filterBy = "this_week") then
      filter (λ s, since now week s = true) filtered
    else if decide (filterBy = "this_month") then
      filter (λ s, since now month s = true) filtered
    else filtered in
  sort (compareBy sortBy) filtered.

(** What [getSightingsStats] returns. *)
Record Stats := {
  total : nat;
  unique : nat;
  thisWeek : nat
}.

(** [getSightingsStats]; the filter callback reads the clock anew for
    every sighting: [clock i] is the reading for the i-th. *)
Definition getSightingsStats (sightings : list Sighting) (clock : nat → Z)
    : Stats :=
  {| total := length sightings;
     unique := size (list_to_set (bird_id <$> sightings) : gset string);
     thisWeek :=
       length (filter (λ p, since (clock p.1) week p.2 = true)
                 (imap pair sightings)) |}.

End SightingsList.

(** ** The login screen *)

Module LoginScreen.
Import AuthContext.

Record FormData := {
  email : string;
  password : string;
  fullName : string;
  confirmPassword : string
}.

Definition blank : FormData :=
  {| email := ""; password := ""; fullName := ""; confirmPassword := "" |}.

(** The state of the screen. *)
Record Screen := {
  isLogin : bool;
  formData : FormData
}.

Inductive Field := Email | Password | FullName | ConfirmPassword.

(** [handleInputChange(field, value)] *)
Definition handleInputChange (field : Field) (value : string)
    (screen : Screen) : Screen :=
  let f := formData screen in
  {| isLogin := isLogin screen;
     formData :=
       match field with
       | Email =>
           {| email := value; password := password f;
              fullName := fullName f; confirmPassword := confirmPassword f |}
       | Password =>
           {| email := email f; password := value;
              fullName := fullName f; confirmPassword := confirmPassword f |}
       | FullName =>
           {| email := email f; password := password f;
              fullName := value; confirmPassword := confirmPassword f |}
       | ConfirmPassword =>
           {| email := email f; password := password f;
              fullName := fullName f; confirmPassword := value |}
       end |}.

(** [validateForm]: the verdict and the alert it shows. *)
Definition validateForm (screen : Screen) : bool * list Effect :=
  let f := formData screen in
  if decide (email f = "" ∨ password f = "") then
    (false, [ShowError "Please fill in all required fields"])
  else if negb (Api.isValidEmail (email f)) then
    (false, [ShowError "Please enter a valid email address"])
  else if (String.length (password f) <? 6)%nat then
    (false, [ShowError "Password must be at least 6 characters long"])
  else if isLogin screen then (true, [])
  else if decide (fullName f = "") then
    (false, [ShowError "Please enter your full name"])
  else if decide (password f ≠ confirmPassword f) then
    (false, [ShowError "Passwords do not match"])
  else (true, []).

(** What the screen does to the outside. *)
Inductive Act :=
| Ui (e : Effect)
| LoginRequest (email password : string)
| RegisterRequest (email password full_name : string)
| GoogleRequest (google_token : string)
| Replace (screen : string).   (* navigation.replace *)

(** [handleSubmit]; [response], [w1] and [w2] are what the sign-in
    meets.  The result is the provider and the store it leaves and
    what it did. *)
Definition handleSubmit (screen : Screen)
    (response : AuthSession.AuthResponse) (w1 w2 : AuthSession.IO)
    (a : AuthSession.Auth) (s : AuthSession.Store)
    : AuthSession.Auth * AuthSession.Store * list Act :=
  let '(valid, shown) := validateForm screen in
  if negb valid then (a, s, Ui <$> shown)
  else
    let f := formData screen in
    let '(result, a', s') :=
      if isLogin screen then AuthSession.login response w1 w2 a s
      else AuthSession.register response w1 w2 a s in
    let request :=
      if isLogin screen then LoginRequest (email f) (password f)
      else RegisterRequest (email f) (password f) (fullName f) in
    if AuthSession.success result then (a', s', [request; Replace "MainTabs"])
    else
      (a', s',
       [request;
        Ui (ShowError (Api.orElse (AuthSession.error result)
                           "Authentication failed"))]).

(** [toggleMode] *)
Definition toggleMode (screen : Screen) : Screen :=
  {| isLogin := negb (isLogin screen); formData := blank |}.

End LoginScreen.

(** ** The settings screen *)

Module SettingsScreen.
Import AuthContext.

Record Display := {
  name : string;
  color : string
}.

(** [getSubscriptionDisplay] *)
Definition getSubscriptionDisplay (user : option User) : Display :=
  let plan := checkSubscriptionStatus user in
  if decide (plan = "premium_monthly") then
    {| name := "Premium Monthly"; color := "#059669" |}
  else if decide (plan = "premium_yearly") then
    {| name := "Premium Yearly"; color := "#059669" |}
  else {| name := "Free Plan"; color := "#6b7280" |}.

End SettingsScreen.

(** ** The community feed screen *)

Module CommunityFeedScreen.
Import AuthContext BirdContext BirdLists.

(** What [formatTimeAgo] decides to print. *)
Inductive TimeAgo :=
| JustNow
| Minutes (n : Z)
| Hours (n : Z)
| Days (n : Z)
| OnDate (timestamp : Z).

Definition timeAgo (now timestamp : Z) : TimeAgo :=
  let diffInMinutes := (now - timestamp) `div` (1000 * 60) in
  if decide (diffInMinutes < 1) then JustNow
  else if decide (diffInMinutes < 60) then Minutes diffInMinutes
  else
    let diffInHours := diffInMinutes `div` 60 in
    if decide (diffInHours < 24) then Hours diffInHours
    else
      let diffInDays := diffInHours `div` 24 in
      if decide (diffInDays < 7) then Days diffInDays
      else OnDate timestamp.

(** [formatTimeAgo(timestamp)]; [now] is the instant [new Date()]
    reads. *)
Definition formatTimeAgo `{Engine} (now timestamp : Z) : string :=
  match timeAgo now timestamp with
  | JustNow => "Just now"
  | Minutes n => pretty n +:+ "m ago"
  | Hours n => pretty n +:+ "h ago"
  | Days n => pretty n +:+ "d ago"
  | OnDate t => toLocaleDateString t
  end.

(** The state of the dialog that creates a post. *)
Record Dialog := {
  showCreatePost : bool;
  newPostCaption : string;
  selectedBirdId : string
}.

(** [submitPost]; the result is the dialog and the feed it leaves,
    what it showed and the requests it sent. *)
Definition submitPost (authToken : option string)
    (response : Js.completion (option Post)) (d : Dialog)
    (communityFeed : list Post)
    : Dialog * list Post * list Effect * list Request :=
  if decide (Text.trim (newPostCaption d) = "") then
    (d, communityFeed, [ShowError "Please enter a caption for your post"], [])
  else if decide (selectedBirdId d = "") then
    (d, communityFeed, [ShowError "Please select a bird for your post"], [])
  else
    match createCommunityPost authToken (selectedBirdId d)
            (Text.trim (newPostCaption d)) None response communityFeed with
    | (Js.Returned _, feed, sent) =>
        ({| showCreatePost := false; newPostCaption := "";
            selectedBirdId := "" |},
         feed, [ShowSuccess "Post shared with the community!"], sent)
    | (Js.Thrown message, feed, sent) =>
        (d, feed,
         [ShowError (Api.orElse (Some message) "Failed to create post")], sent)
    end.

End CommunityFeedScreen.

(** ** The upsell screen *)

Module PremiumUpsellScreen.
Import AuthContext.

Inductive Act :=
| Ui (e : Effect)
| SubscribeRequest (plan_id payment_method_id : string)
| GoBack.   (* navigation.goBack *)

(** [handleSubscribe].  [user] is the closure's, [response] the
    [subscription_id] of the answer (missing when the body has none)
    or the error, [stored] and [current] as for [updateUser].  Without
    a user, reading [user.authToken] throws before anything is sent;
    [typeError] is the message the engine gives that error. *)
Definition handleSubscribe (typeError : string) (user : option User)
    (selectedPlan : string) (response : Js.completion (option string))
    (stored : bool) (current : option User) : option User * list Act :=
  match user with
  | None =>
      (current,
       [Ui (ShowError (Api.orElse (Some typeError) "Subscription failed"))])
  | Some _ =>
      let sent := SubscribeRequest selectedPlan "mock_payment_method" in
      match response with
      | Js.Returned (Some subscription_id) =>
          if decide (subscription_id = "") then
            (current,
             [sent; Ui (ShowError "Subscription failed. Please try again.")])
          else
            (updateUser user
               {| set_subscription_plan := Some selectedPlan;
                  set_scans_today := None;
                  set_last_scan_date := None |}
               stored current,
             [sent; Ui (ShowSuccess "Welcome to BirdScope Premium!"); GoBack])
      | Js.Returned None =>
          (current,
           [sent; Ui (ShowError "Subscription failed. Please try again.")])
      | Js.Thrown message =>
          (current,
           [sent;
            Ui (ShowError (Api.orElse (Some message) "Subscription failed"))])
      end
  end.

End PremiumUpsellScreen.

(** ** What the camera screen keeps through a day *)

Module DailyCap.
Import AuthContext CameraScreen Ledger.

(** For a free user the count stays at 3 or below, and an image is
    pending only below 3. *)
Definition capped `{LocalCalendar} (day : Z) (app : App) : Prop :=
  ∃ u, user app = Some u ∧ isFree (Some u)
       ∧ todayCount (Some u) day ≤ 3
       ∧ (capturedImage app ≠ None → todayCount (Some u) day < 3).

End DailyCap.

(** ** Concrete engines and data for the examples *)

Module Samples.
Import BirdLists.

(** An engine that leaves case alone and orders by code units. *)
Definition plainEngine : Engine :=
  {| toLowerCase := λ s, s;
     localeCompare := String.compare;
     toLocaleDateString := λ t, pretty t |}.

Definition sighting (id bird : string) (t : Z) : Sighting :=
  {| sighting_id := id; bird_id := bird; common_name := bird;
     scientific_name := bird; timestamp := t; confidence := 1 # 2 |}.

Definition post (id : string) (n : Z) : Post :=
  {| post_id := id; likes := n; user_name := "ana"; caption := "seen today";
     post_timestamp := 0 |}.

End Samples.

(** * Properties *)

Import AuthContext BirdContext CameraScreen MySightingsScreen Ledger.

(** ** The subscription tier and the feature gate *)

Section FeatureGate.
Import AuthContext Ledger.

Lemma checkSubscriptionStatus_absent_plan (u : User) :
  subscription_plan u = None → checkSubscriptionStatus (Some u) = "free".
Proof. unfold checkSubscriptionStatus. by intros ->. Qed.

Lemma premiumFeatures_listed (feature : string) :
  feature ∈ enumeratedFeatures → premiumFeatures !! feature = Some true.
Proof.
  unfold enumeratedFeatures. rewrite !elem_of_cons, elem_of_nil.
  intros H. repeat destruct H as [-> | H]; try reflexivity. done.
Qed.

Lemma premiumFeatures_unlisted (feature : string) :
  feature ∉ enumeratedFeatures → premiumFeatures !! feature = None.
Proof.
  unfold enumeratedFeatures. rewrite !not_elem_of_cons.
  intros (? & ? & ? & ? & ? & ? & ? & ? & _).
  unfold premiumFeatures. rewrite !lookup_insert_ne by done.
  apply lookup_empty.
Qed.

Lemma canAccessPremiumFeature_free (user : option User) (feature : string) :
  isFree user → canAccessPremiumFeature user feature = Js.Bool false.
Proof.
  unfold isFree, canAccessPremiumFeature. intros ->. by case_decide.
Qed.

(** A name that is neither listed nor inherited is denied. *)
Lemma canAccessPremiumFeature_unknown (user : option User) (feature : string) :
  feature ∉ enumeratedFeatures → feature ∉ Js.Object_prototype →
  canAccessPremiumFeature user feature = Js.Bool false.
Proof.
  intros Hl Hp. unfold canAccessPremiumFeature. case_decide; [done |].
  unfold Js.get. rewrite (premiumFeatures_unlisted _ Hl).
  by rewrite decide_False.
Qed.

Lemma listed_not_inherited :
  Forall (λ feature, feature ∉ Js.Object_prototype) enumeratedFeatures.
Proof. apply (bool_decide_unpack _). by vm_compute. Qed.

(** A name that is inherited and not listed is handed back as the
    inherited member, which is truthy. *)
Lemma canAccessPremiumFeature_inherited (user : option User) (feature : string) :
  ¬ isFree user → feature ∈ Js.Object_prototype →
  canAccessPremiumFeature user feature = Js.Builtin feature.
Proof.
  intros Hf Hp. unfold canAccessPremiumFeature. rewrite decide_False by done.
  unfold Js.get. rewrite premiumFeatures_unlisted.
  - by rewrite decide_True.
  - intros Hl. by apply (proj1 (Forall_forall _ _) listed_not_inherited) in Hl.
Qed.

Lemma unlimited_sightings_granted (user : option User) :
  ¬ isFree user →
  canAccessPremiumFeature user "unlimited_sightings" = Js.Bool true.
Proof.
  intros Hf. unfold canAccessPremiumFeature. by rewrite decide_False.
Qed.

(** C5.  For every feature name listed in [premiumFeatures],
    [canAccessPremiumFeature] answers [true] exactly when the tier is
    not free and [false] when it is free: one rule, tier ≠ free, for
    all eight names. *)
Theorem canAccessPremiumFeature_flat_rule (user : option User)
    (feature : string) :
  feature ∈ enumeratedFeatures →
  canAccessPremiumFeature user feature
  = Js.Bool (bool_decide (checkSubscriptionStatus user ≠ "free")).
Proof.
  intros Hl. unfold canAccessPremiumFeature. case_decide as Hs.
  - by rewrite bool_decide_eq_false_2 by (by intros []).
  - rewrite bool_decide_eq_true_2 by done.
    unfold Js.get. by rewrite (premiumFeatures_listed _ Hl).
Qed.

Lemma canAccessPremiumFeature_flat_rule_witness :
  "migration_maps" ∈ enumeratedFeatures
  ∧ canAccessPremiumFeature (Some (newUser (Some "premium_yearly")))
      "migration_maps" = Js.Bool true
  ∧ canAccessPremiumFeature (Some (newUser None)) "migration_maps"
    = Js.Bool false.
Proof.
  assert (Hl : "migration_maps" ∈ enumeratedFeatures)
    by (apply (bool_decide_unpack _); exact I).
  split; [exact Hl |]. split.
  - exact (canAccessPremiumFeature_flat_rule
             (Some (newUser (Some "premium_yearly"))) "migration_maps" Hl).
  - exact (canAccessPremiumFeature_flat_rule
             (Some (newUser None)) "migration_maps" Hl).
Defined.

(** C9.  The claim says that a name outside the table is denied to
    every session.  ["constructor"] is outside the table, and for a
    premium session the lookup finds the member every object literal
    inherits: the gate hands back that member, which callers read as
    access granted. *)
Theorem canAccessPremiumFeature_constructor :
  ("constructor" ∉ enumeratedFeatures)
  ∧ canAccessPremiumFeature (Some (newUser (Some "premium_monthly")))
      "constructor" = Js.Builtin "constructor"
  ∧ Js.not (canAccessPremiumFeature (Some (newUser (Some "premium_monthly")))
              "constructor") = false.
Proof.
  split; [by apply (bool_decide_unpack _) |].
  rewrite canAccessPremiumFeature_inherited; [done | by intros [=] |].
  by apply (bool_decide_unpack _).
Qed.

(** A session without a plan is a free session for the tier and for
    the feature gate. *)
Lemma absent_plan_is_free (u : User) (feature : string) :
  subscription_plan u = None →
  isFree (Some u) ∧ canAccessPremiumFeature (Some u) feature = Js.Bool false.
Proof.
  intros Hp. pose proof (checkSubscriptionStatus_absent_plan u Hp) as Hf.
  split; [exact Hf |]. by apply canAccessPremiumFeature_free.
Qed.

End FeatureGate.

(** ** The sightings screen *)

Section Sightings.
Import AuthContext Ledger MySightingsScreen.

(** C10.  For a free-tier user the sightings screen takes the storage
    limit as reached exactly when the list holds 5 entries or more,
    and the export action sends the user to the upsell screen however
    many sightings there are. *)
Theorem free_tier_sightings_gates {A : Type} (user : option User)
    (sightings : list A) :
  isFree user →
  hasLimitReached user sightings = bool_decide (5 ≤ length sightings)%nat
  ∧ exportSightings user = [Navigate "PremiumUpsell"].
Proof.
  intros Hf. unfold hasLimitReached, exportSightings.
  by rewrite (canAccessPremiumFeature_free _ _ Hf).
Qed.

Lemma free_tier_sightings_gates_witness :
  isFree (Some (newUser (Some "free")))
  ∧ hasLimitReached (Some (newUser (Some "free"))) [1; 2; 3; 4; 5]%nat = true
  ∧ hasLimitReached (Some (newUser (Some "free"))) [1; 2; 3; 4]%nat = false
  ∧ exportSightings (Some (newUser (Some "free"))) = [Navigate "PremiumUpsell"].
Proof.
  assert (Hf : isFree (Some (newUser (Some "free")))) by reflexivity.
  split; [exact Hf |].
  split; [exact (proj1 (free_tier_sightings_gates _ [1; 2; 3; 4; 5]%nat Hf)) |].
  split; [exact (proj1 (free_tier_sightings_gates _ [1; 2; 3; 4]%nat Hf)) |].
  exact (proj2 (free_tier_sightings_gates _ [1]%nat Hf)).
Defined.

(** With the entitlement neither gate closes. *)
Lemma premium_sightings_gates {A : Type} (user : option User)
    (sightings : list A) :
  ¬ isFree user →
  hasLimitReached user sightings = false
  ∧ exportSightings user
    = [ShowSuccess "Sightings exported to your downloads folder"].
Proof.
  intros Hf. unfold hasLimitReached, exportSightings.
  rewrite unlimited_sightings_granted by done. done.
Qed.

End Sightings.

(** ** The scan bookkeeping *)

Section Bookkeeping.
Context `{LocalCalendar}.
Import AuthContext BirdContext Ledger.

Lemma spread_keeps_plan (u : User) (p : UserPatch) :
  set_subscription_plan p = None →
  checkSubscriptionStatus (Some (spread (Some u) p))
  = checkSubscriptionStatus (Some u).
Proof. unfold checkSubscriptionStatus, spread. simpl. by intros ->. Qed.

Lemma countScan_stored (u : User) (env : Env) (current : option User) :
  stored env = true → countScan (Some u) env current = Some (counted u env).
Proof.
  intros Hs. unfold countScan, updateUser, counted. rewrite Hs.
  by case_decide.
Qed.

Lemma countScan_not_stored (user : option User) (env : Env)
    (current : option User) :
  stored env = false → countScan user env current = current.
Proof.
  intros Hs. unfold countScan, updateUser. rewrite Hs.
  destruct user; [by case_decide | done].
Qed.

Lemma countScan_cases (u : User) (env : Env) :
  countScan (Some u) env (Some u) = Some (counted u env)
  ∨ countScan (Some u) env (Some u) = Some u.
Proof.
  destruct (stored env) eqn:Hs.
  - left. by apply countScan_stored.
  - right. by apply countScan_not_stored.
Qed.

Lemma counted_tier (u : User) (env : Env) :
  checkSubscriptionStatus (Some (counted u env))
  = checkSubscriptionStatus (Some u).
Proof. done. Qed.

Lemma counted_todayCount (u : User) (env : Env) (day : Z) :
  envOnDay day env →
  todayCount (Some (counted u env)) day = todayCount (Some u) day + 1.
Proof.
  intros [Ht Hs]. unfold todayCount, counted, lastScanDate at 1. simpl.
  unfold toDateString.
  repeat case_decide; simplify_eq/=; first [done | congruence].
Qed.

(** The tier never changes through the bookkeeping. *)
Lemma countScan_tier (u : User) (env : Env) :
  checkSubscriptionStatus (countScan (Some u) env (Some u))
  = checkSubscriptionStatus (Some u).
Proof. by destruct (countScan_cases u env) as [-> | ->]. Qed.


Lemma getRemainingScans_free (u : User) (now : Z) :
  isFree (Some u) →
  getRemainingScans (Some u) now
  = Z.max 0 (3 - todayCount (Some u) (toLocalDay now)).
Proof.
  unfold isFree, getRemainingScans, todayCount, toDateString. intros ->.
  rewrite decide_False by (by intros []).
  destruct (decide (lastScanDate u = DayString (toLocalDay now))) as [-> | Hne].
  - by rewrite decide_False by (by intros []).
  - by rewrite decide_True by congruence.
Qed.

Lemma getRemainingScans_not_free (u : User) (now : Z) :
  ¬ isFree (Some u) → getRemainingScans (Some u) now = -1.
Proof.
  unfold isFree, getRemainingScans. intros Hp. by rewrite decide_True.
Qed.


Lemma identifyBird_result (authToken : option string)
    (user current : option User) (imageUri : string) (env : Env)
    (result : BirdResult) :
  noToken authToken = false → response env = ApiResult result →
  identifyBird authToken user imageUri env current
  = (Js.Returned result, countScan user env current,
     [ClassifierRequest imageUri]).
Proof. unfold identifyBird. by intros -> ->. Qed.

(** [identifyBird] sends at most one request, and leaves the state as
    it was unless the service answered with a result. *)
Lemma identifyBird_cases (authToken : option string)
    (user current : option User) (imageUri : string) (env : Env) :
  let '(c, after, sent) := identifyBird authToken user imageUri env current in
  (after = current ∧ isReturned c = false
   ∨ after = countScan user env current ∧ isReturned c = true)
  ∧ (sent = [] ∨ sent = [ClassifierRequest imageUri]).
Proof.
  unfold identifyBird. destruct (noToken authToken); [by auto |].
  destruct (response env); simpl; auto.
Qed.


End Bookkeeping.

(** ** Remaining scans *)

Section Remaining.
Context `{LocalCalendar}.
Import AuthContext BirdContext Ledger.

(** Successive successful calls on one day: every one returns its
    result, sends one request and adds 1 to the day's count. *)
Lemma successive_counts (authToken : option string) (day : Z)
    (calls : list (string * Env)) :
  noToken authToken = false → Forall (goodCall day) calls →
  ∀ u, ∃ u',
    successive authToken calls (Some u)
    = (map (λ call, match response call.2 with
                    | ApiResult r => Js.Returned r
                    | _ => Js.Thrown ""
                    end) calls,
       Some u',
       map (λ call, ClassifierRequest call.1) calls)
    ∧ checkSubscriptionStatus (Some u') = checkSubscriptionStatus (Some u)
    ∧ todayCount (Some u') day
      = todayCount (Some u) day + Z.of_nat (length calls).
Proof.
  intros Ht. induction 1 as [| [uri env] calls [Hd [[r Hr] Hs]] _ IH];
    intros u.
  - exists u. cbn [successive map length]. split; [done |]. split; [done | lia].
  - cbn [successive map length fst snd] in *.
    rewrite (identifyBird_result _ _ _ _ _ r Ht Hr).
    rewrite (countScan_stored _ _ _ Hs).
    destruct (IH (counted u env)) as (u' & -> & Hp & Hc).
    exists u'. rewrite Hr. split; [done |]. split.
    + by rewrite Hp.
    + rewrite Hc, (counted_todayCount _ _ _ Hd). lia.
Qed.

(** C4.  For a signed-in user [getRemainingScans] is -1 when the tier
    is not free and [max 0 (3 - todayCount)] when it is, [todayCount]
    being the count stored for the current calendar day and 0 when
    there is no entry for it.  So after N ≤ 3 successful
    identifications of a free user in one day, starting from a day
    without entry, it is 3 - N.  It is a read: it returns a number and
    writes nothing. *)
Theorem getRemainingScans_spec :
  (∀ (u : User) (now : Z),
     getRemainingScans (Some u) now
     = if decide (checkSubscriptionStatus (Some u) = "free")
       then Z.max 0 (3 - todayCount (Some u) (toLocalDay now))
       else -1)
  ∧ (∀ (authToken : option string) (u : User)
       (calls : list (string * Env)) (now : Z),
       noToken authToken = false →
       isFree (Some u) →
       todayCount (Some u) (toLocalDay now) = 0 →
       Forall (goodCall (toLocalDay now)) calls →
       (length calls ≤ 3)%nat →
       getRemainingScans (successive authToken calls (Some u)).1.2 now
       = 3 - Z.of_nat (length calls)).
Proof.
  split.
  - intros u now. case_decide.
    + by apply getRemainingScans_free.
    + by apply getRemainingScans_not_free.
  - intros tok u calls now Ht Hf H0 Hg Hn.
    destruct (successive_counts tok _ calls Ht Hg u) as (u' & -> & Hp & Hc).
    cbn [fst snd]. rewrite getRemainingScans_free by (unfold isFree; by rewrite Hp).
    rewrite Hc, H0. lia.
Qed.

End Remaining.

Lemma getRemainingScans_spec_witness :
  let calls := [("a.jpg", okAt 10); ("b.jpg", okAt 20)] in
  noToken (Some "token") = false
  ∧ isFree (Some (newUser None))
  ∧ @todayCount utc (Some (newUser None)) (@toLocalDay utc 30) = 0
  ∧ Forall (@goodCall utc (@toLocalDay utc 30)) calls
  ∧ (length calls ≤ 3)%nat
  ∧ @getRemainingScans utc
      (@successive utc (Some "token") calls (Some (newUser None))).1.2 30 = 1.
Proof.
  intros calls.
  assert (Hg : Forall (@goodCall utc (@toLocalDay utc 30)) calls).
  { repeat constructor; by eexists. }
  assert (Hn : (length calls ≤ 3)%nat) by (simpl; lia).
  split; [reflexivity |]. split; [reflexivity |]. split; [reflexivity |].
  split; [exact Hg |]. split; [exact Hn |].
  exact (proj2 (@getRemainingScans_spec utc) (Some "token") (newUser None)
           calls 30 eq_refl eq_refl eq_refl Hg Hn).
Defined.

(** ** The gate of the camera screen *)

Section Camera.
Context `{LocalCalendar}.

Lemma getRemainingScans_exhausted (u : User) (now : Z) :
  isFree (Some u) → 3 ≤ todayCount (Some u) (toLocalDay now) →
  getRemainingScans (Some u) now = 0.
Proof. intros Hf Hc. rewrite getRemainingScans_free by done. lia. Qed.

Lemma getRemainingScans_open (u : User) (now : Z) :
  isFree (Some u) → todayCount (Some u) (toLocalDay now) < 3 →
  getRemainingScans (Some u) now ≠ 0.
Proof. intros Hf Hc. rewrite getRemainingScans_free by done. lia. Qed.

Lemma takePicture_refused (app : App) (now : Z) (shot : option string) :
  cameraReady app = true → getRemainingScans (user app) now = 0 →
  takePicture app now shot = (app, [Alert "Daily Limit Reached"]).
Proof. unfold takePicture. intros -> ->. done. Qed.

Lemma pickImage_refused (app : App) (now : Z) (picked : Picked) :
  getRemainingScans (user app) now = 0 →
  pickImage app now picked = (app, [Alert "Daily Limit Reached"]).
Proof. unfold pickImage. intros ->. done. Qed.

Lemma takePicture_accepted (app : App) (now : Z) (uri : string) :
  cameraReady app = true → getRemainingScans (user app) now ≠ 0 →
  takePicture app now (Some uri) = (withImage app (Some uri), []).
Proof.
  unfold takePicture. intros -> Hr. simpl. by rewrite decide_False.
Qed.

Lemma pickImage_accepted (app : App) (now : Z) (uri : string) :
  getRemainingScans (user app) now ≠ 0 →
  pickImage app now (Asset uri) = (withImage app (Some uri), []).
Proof. unfold pickImage. intros Hr. by rewrite decide_False. Qed.

Lemma capture_accepted (app : App) (a : Attempt) :
  cameraReady app = true → getRemainingScans (user app) (capture_at a) ≠ 0 →
  handle app (captureEvent a) = (withImage app (Some (photo a)), []).
Proof.
  intros Hc Hr. unfold captureEvent. destruct (source a); cbn [handle].
  - by apply takePicture_accepted.
  - by apply pickImage_accepted.
Qed.

Lemma capture_refused (app : App) (a : Attempt) :
  cameraReady app = true → getRemainingScans (user app) (capture_at a) = 0 →
  handle app (captureEvent a) = (app, [Alert "Daily Limit Reached"]).
Proof.
  intros Hc Hr. unfold captureEvent. destruct (source a); cbn [handle].
  - by apply takePicture_refused.
  - by apply pickImage_refused.
Qed.

Lemma identifyBirdPhoto_no_image (app : App) (env : Env) :
  capturedImage app = None → identifyBirdPhoto app env = (app, []).
Proof. unfold identifyBirdPhoto. by intros ->. Qed.




(** While the gate is open a scan goes through and is counted. *)
Lemma scanAttempt_accepted (app : App) (u : User) (day : Z) (a : Attempt) :
  ready app → user app = Some u → isFree (Some u) →
  goodAttempt day a → todayCount (Some u) day < 3 →
  scanAttempt app a
  = ({| user := Some (counted u (answer a)); authToken := authToken app;
        capturedImage := None; cameraReady := cameraReady app |},
     [ClassifierRequest (photo a); Navigate "ScanResults"]).
Proof.
  intros (Ht & Hr & Hi) Hu Hf (Hd & He & [r Hres] & Hs) Hc.
  unfold scanAttempt, attemptEvents. cbn [run].
  rewrite capture_accepted;
    [| done | rewrite Hu; apply getRemainingScans_open; by rewrite ?Hd].
  cbn [handle]. unfold identifyBirdPhoto.
  cbn [withImage capturedImage user authToken].
  rewrite (identifyBird_result _ _ _ _ _ r Ht Hres), Hu.
  by rewrite (countScan_stored _ _ _ Hs).
Qed.

(** Once the day's count is 3 or more the capture is refused and
    nothing else happens. *)
Lemma scanAttempt_refused (app : App) (u : User) (day : Z) (a : Attempt) :
  cameraReady app = true → capturedImage app = None →
  user app = Some u → isFree (Some u) →
  toLocalDay (capture_at a) = day → 3 ≤ todayCount (Some u) day →
  scanAttempt app a = (app, [Alert "Daily Limit Reached"]).
Proof.
  intros Hr Hi Hu Hf Hd Hc. unfold scanAttempt, attemptEvents.
  cbn [run].
  rewrite capture_refused;
    [| done | rewrite Hu; apply getRemainingScans_exhausted; by rewrite ?Hd].
  cbn [handle]. by rewrite identifyBirdPhoto_no_image.
Qed.

End Camera.

(** ** Three scans a day *)

Section DailyLimit.
Context `{LocalCalendar}.

Lemma scanAttempts_count (day : Z) (before : list Attempt) :
  Forall (goodAttempt day) before →
  ∀ (app : App) (u : User),
    ready app → user app = Some u → isFree (Some u) →
    todayCount (Some u) day ≤ 3 →
    ∃ u1,
      ready (scanAttempts app before)
      ∧ user (scanAttempts app before) = Some u1
      ∧ isFree (Some u1)
      ∧ todayCount (Some u1) day
        = Z.min 3 (todayCount (Some u) day + Z.of_nat (length before)).
Proof.
  induction 1 as [| a before Ha _ IH]; intros app u Hr Hu Hf Hc.
  - exists u. cbn [scanAttempts length].
    split; [done |]. split; [done |]. split; [done |]. lia.
  - cbn [scanAttempts length].
    destruct (decide (todayCount (Some u) day < 3)) as [Hlt | Hge].
    + rewrite (scanAttempt_accepted app u day a) by done. cbn [fst].
      destruct Hr as (Ht & Hcam & _). destruct Ha as (_ & Hd & _).
      destruct (IH {| user := Some (counted u (answer a));
                      authToken := authToken app;
                      capturedImage := None;
                      cameraReady := cameraReady app |}
                   (counted u (answer a))) as (u1 & ? & ? & ? & Hc1).
      * by split.
      * done.
      * unfold isFree. by rewrite counted_tier.
      * rewrite (counted_todayCount _ _ _ Hd). lia.
      * exists u1. split; [done |]. split; [done |]. split; [done |].
        rewrite Hc1, (counted_todayCount _ _ _ Hd). lia.
    + destruct Hr as (Ht & Hcam & Hi). destruct Ha as (Hd & _).
      rewrite (scanAttempt_refused app u day a) by (done || lia). cbn [fst].
      destruct (IH app u) as (u1 & ? & ? & ? & Hc1); try done.
      exists u1. split; [done |]. split; [done |]. split; [done |].
      rewrite Hc1. lia.
Qed.

(** C1, as the code has it.  For a free user on one calendar day,
    starting from a day without entry, each of the first 3 scans made
    on the camera screen is accepted by the capture gate and, once the
    bird is identified, adds 1 to the stored count; every later
    capture that day finds [getRemainingScans() = 0], is refused with
    the "Daily Limit Reached" alert and changes nothing. *)
Theorem free_tier_gated_scans (app : App) (u : User) (day : Z)
    (before : list Attempt) (a : Attempt) :
  ready app → user app = Some u → isFree (Some u) →
  todayCount (Some u) day = 0 →
  Forall (goodAttempt day) before → goodAttempt day a →
  let app1 := scanAttempts app before in
  todayCount (user app1) day = Z.min 3 (Z.of_nat (length before))
  ∧ ((length before < 3)%nat →
       (scanAttempt app1 a).2
       = [ClassifierRequest (photo a); Navigate "ScanResults"]
       ∧ todayCount (user (scanAttempt app1 a).1) day
         = todayCount (user app1) day + 1)
  ∧ ((3 ≤ length before)%nat →
       getRemainingScans (user app1) (capture_at a) = 0
       ∧ scanAttempt app1 a = (app1, [Alert "Daily Limit Reached"])).
Proof.
  intros Hr Hu Hf H0 Hb Ha app1.
  destruct (scanAttempts_count day before Hb app u) as (u1 & Hr1 & Hu1 & Hf1 & Hc1);
    [done | done | done | lia |].
  fold app1 in Hr1, Hu1. rewrite H0 in Hc1. rewrite Hu1, Hc1.
  split; [f_equal; lia |]. split; intros Hn.
  - rewrite (scanAttempt_accepted app1 u1 day a) by (done || lia).
    cbn [fst snd user]. destruct Ha as (_ & Hd & _).
    by rewrite counted_todayCount, Hc1.
  - destruct Hr1 as (_ & Hcam & Hi). destruct Ha as (Hd & _). split.
    + apply getRemainingScans_exhausted; [done |]. rewrite Hd. lia.
    + apply (scanAttempt_refused app1 u1 day a); try done. lia.
Qed.

(** C2, as the code has it.  The quota is checked where the image is
    captured.  For a free user whose count for the day is 3 or more
    and who has no image pending, whatever is done on the camera
    screen that day (captures, picks, the Identify button, retakes)
    ends with the same [user], still no image, and nothing but "Daily
    Limit Reached" alerts: no request reaches the classifier. *)
Theorem exhausted_quota_sends_no_request (u : User) (day : Z)
    (evs : list Event) :
  isFree (Some u) → 3 ≤ todayCount (Some u) day →
  Forall (eventOnDay day) evs →
  ∀ app : App,
    user app = Some u → capturedImage app = None →
    user (run app evs).1 = Some u
    ∧ capturedImage (run app evs).1 = None
    ∧ Forall (λ e, e = Alert "Daily Limit Reached") (run app evs).2.
Proof.
  intros Hf Hc. induction 1 as [| ev evs Hd _ IH]; intros app Hu Hi.
  - cbn [run fst snd]. by repeat split.
  - cbn [run].
    assert (Hgate : ∀ now, toLocalDay now = day →
              getRemainingScans (user app) now = 0).
    { intros now <-. rewrite Hu. by apply getRemainingScans_exhausted. }
    assert (Hstep : user (handle app ev).1 = Some u
              ∧ capturedImage (handle app ev).1 = None
              ∧ Forall (λ e, e = Alert "Daily Limit Reached") (handle app ev).2).
    { destruct ev as [now shot | now picked | env |]; cbn [handle].
      - unfold takePicture. destruct (cameraReady app); cbn [negb];
          [| by repeat split].
        rewrite (Hgate now Hd), decide_True by done.
        repeat split; try done. by repeat constructor.
      - rewrite (pickImage_refused _ _ _ (Hgate now Hd)).
        repeat split; try done. by repeat constructor.
      - rewrite (identifyBirdPhoto_no_image _ _ Hi). by repeat split.
      - by repeat split. }
    destruct (handle app ev) as [app1 out1]. cbn [fst snd] in Hstep.
    destruct Hstep as (Hu1 & Hi1 & Ho1).
    specialize (IH app1 Hu1 Hi1).
    destruct (run app1 evs) as [app2 out2]. cbn [fst snd] in *.
    destruct IH as (? & ? & ?). repeat split; try done.
    by apply Forall_app.
Qed.

End DailyLimit.

Lemma free_tier_gated_scans_witness :
  let app := signedIn (newUser (Some "free")) in
  let before := [attemptAt 10; pickAt 1000; attemptAt 2000] in
  let a := pickAt 3000 in
  ready app
  ∧ isFree (Some (newUser (Some "free")))
  ∧ @todayCount utc (Some (newUser (Some "free"))) 0 = 0
  ∧ Forall (@goodAttempt utc 0) before
  ∧ @goodAttempt utc 0 a
  ∧ (3 ≤ length before)%nat
  ∧ @getRemainingScans utc (user (@scanAttempts utc app before)) (capture_at a) = 0
  ∧ @scanAttempt utc (@scanAttempts utc app before) a
    = (@scanAttempts utc app before, [Alert "Daily Limit Reached"]).
Proof.
  intros app before a.
  assert (Hr : ready app) by done.
  assert (Hb : Forall (@goodAttempt utc 0) before).
  { repeat constructor; by eexists. }
  assert (Ha : @goodAttempt utc 0 a).
  { repeat constructor; by eexists. }
  assert (Hn : (3 ≤ length before)%nat) by (simpl; lia).
  split; [exact Hr |]. split; [reflexivity |]. split; [reflexivity |].
  split; [exact Hb |]. split; [exact Ha |]. split; [exact Hn |].
  exact (proj2 (proj2 (@free_tier_gated_scans utc app (newUser (Some "free")) 0
                         before a Hr eq_refl eq_refl eq_refl Hb Ha)) Hn).
Defined.

(** C1, as the spec has it, fails on [identifyBird]: the bookkeeping
    has no limit of its own.  After three counted identifications a
    fourth call the service answers returns the bird and stores 4. *)
Lemma fourth_identifyBird_is_counted :
  let calls := [("1.jpg", okAt 10); ("2.jpg", okAt 20); ("3.jpg", okAt 30)] in
  let u3 := (@successive utc (Some "token") calls
               (Some (newUser (Some "free")))).1.2 in
  let fourth := @identifyBird utc (Some "token") u3 "4.jpg" (okAt 40) u3 in
  isFree u3
  ∧ @todayCount utc u3 0 = 3
  ∧ fourth = (Js.Returned robin, Some (userWith (Some "free") 4 41),
              [ClassifierRequest "4.jpg"])
  ∧ ¬ (isReturned fourth.1.1 = false
       ∧ @todayCount utc fourth.1.2 0 = @todayCount utc u3 0).
Proof.
  split; [by vm_compute |]. split; [by vm_compute |].
  split; [by vm_compute |]. intros [Hc _]. by vm_compute in Hc.
Qed.

Lemma exhausted_quota_sends_no_request_witness :
  let u := userWith (Some "free") 3 10 in
  let evs := [ TakePicture 20 (Some "4.jpg"); IdentifyBirdPhoto (okAt 30);
               PickImage 40 (Asset "5.jpg"); IdentifyBirdPhoto (okAt 50) ] in
  isFree (Some u)
  ∧ 3 ≤ @todayCount utc (Some u) 0
  ∧ Forall (@eventOnDay utc 0) evs
  ∧ user (@run utc (signedIn u) evs).1 = Some u
  ∧ capturedImage (@run utc (signedIn u) evs).1 = None
  ∧ Forall (λ e, e = Alert "Daily Limit Reached") (@run utc (signedIn u) evs).2.
Proof.
  intros u evs.
  assert (Hc : 3 ≤ @todayCount utc (Some u) 0) by (by vm_compute).
  assert (He : Forall (@eventOnDay utc 0) evs) by (by repeat constructor).
  split; [reflexivity |]. split; [exact Hc |]. split; [exact He |].
  exact (@exhausted_quota_sends_no_request utc u 0 evs eq_refl Hc He
           (signedIn u) eq_refl eq_refl).
Defined.

(** C2, as the spec has it, fails on [identifyBird]: it checks the
    token and nothing else before it posts the image.  With the day's
    three scans used up the request is sent all the same. *)
Lemma identifyBird_ignores_quota :
  let u := userWith (Some "free") 3 10 in
  let call := @identifyBird utc (Some "token") (Some u) "4.jpg" (okAt 20)
                (Some u) in
  isFree (Some u)
  ∧ @getRemainingScans utc (Some u) 20 = 0
  ∧ call = (Js.Returned robin, Some (userWith (Some "free") 4 21),
            [ClassifierRequest "4.jpg"])
  ∧ ¬ (isReturned call.1.1 = false ∧ ClassifierRequest "4.jpg" ∉ call.2).
Proof.
  split; [by vm_compute |]. split; [by vm_compute |].
  split; [by vm_compute |]. intros [Hc _]. by vm_compute in Hc.
Qed.

(** ** The count through the day and across midnight *)

Section Days.
Context `{LocalCalendar}.




End Days.



(** ** Premium users *)

Section Premium.
Context `{LocalCalendar}.

Lemma isPremium_not_free (user : option User) : isPremium user → ¬ isFree user.
Proof. unfold isPremium, isFree. intros [-> | ->]; by intros [=]. Qed.


End Premium.



(** ** Sessions without a user or a token *)

Section Sessions.
Context `{LocalCalendar}.


End Sessions.



(** ** Calls that overlap *)

Section Overlap.
Context `{LocalCalendar}.

(** What simultaneous calls leave: the write of the last one to
    resume, computed from the [user] they all started with. *)
Lemma simultaneous_result (authToken : option string) (u : User) (day : Z)
    (calls : list (string * Env)) :
  noToken authToken = false → Forall (goodCall day) calls →
  ∀ current,
    simultaneous authToken (Some u) calls current
    = (map (λ call, match response call.2 with
                    | ApiResult r => Js.Returned r
                    | _ => Js.Thrown ""
                    end) calls,
       from_option (λ call, Some (counted u call.2)) current (last calls),
       map (λ call, ClassifierRequest call.1) calls).
Proof.
  intros Ht. induction 1 as [| [uri env] calls [Hd [[r Hr] Hs]] _ IH];
    intros current; [done |].
  cbn [simultaneous map fst snd] in *.
  rewrite (identifyBird_result _ _ _ _ _ r Ht Hr), (countScan_stored _ _ _ Hs).
  rewrite IH, Hr, last_cons. by destruct (last calls).
Qed.

(** C8, as the code has it.  The bookkeeping is a read of the
    render's [user] followed by a write, with the request in between.
    When one user makes any number k ≥ 1 of simultaneous calls of
    [identifyBird] on one day and the service answers them all, every
    call sends its request and returns its result, none is refused,
    and the stored count ends one above the count they started from
    (1 from an empty ledger), whatever k. *)
Theorem simultaneous_scans_count_once (authToken : option string)
    (u : User) (day : Z) (calls : list (string * Env)) :
  noToken authToken = false → calls ≠ [] → Forall (goodCall day) calls →
  let '(completions, after, sent) :=
    simultaneous authToken (Some u) calls (Some u) in
  Forall (λ c, isReturned c = true) completions
  ∧ length completions = length calls
  ∧ sent = map (λ call, ClassifierRequest call.1) calls
  ∧ todayCount after day = todayCount (Some u) day + 1.
Proof.
  intros Ht Hne Hg. rewrite (simultaneous_result _ _ day) by done.
  split; [| split; [| split]].
  - apply Forall_map. eapply Forall_impl; [exact Hg |].
    by intros [uri env] [_ [[r ->] _]].
  - by rewrite length_map.
  - done.
  - destruct (last calls) as [[uri env] |] eqn:Hl.
    + cbn [from_option snd]. apply counted_todayCount.
      apply last_Some_elem_of in Hl.
      by destruct (proj1 (Forall_forall _ _) Hg _ Hl) as [Hd _].
    + by apply last_None in Hl.
Qed.

End Overlap.

Lemma simultaneous_scans_count_once_witness :
  let calls := [("1.jpg", okAt 10); ("2.jpg", okAt 20)] in
  noToken (Some "token") = false
  ∧ calls ≠ []
  ∧ Forall (@goodCall utc 0) calls
  ∧ let '(completions, after, sent) :=
      @simultaneous utc (Some "token") (Some (newUser (Some "free"))) calls
        (Some (newUser (Some "free"))) in
    Forall (λ c, isReturned c = true) completions
    ∧ length completions = length calls
    ∧ sent = map (λ call, ClassifierRequest call.1) calls
    ∧ @todayCount utc after 0 = @todayCount utc (Some (newUser (Some "free"))) 0 + 1.
Proof.
  intros calls.
  assert (Hne : calls ≠ []) by done.
  assert (Hg : Forall (@goodCall utc 0) calls).
  { repeat constructor; by eexists. }
  split; [reflexivity |]. split; [exact Hne |]. split; [exact Hg |].
  exact (@simultaneous_scans_count_once utc (Some "token")
           (newUser (Some "free")) 0 calls eq_refl Hne Hg).
Defined.

(** C8, as the spec has it, fails: ten simultaneous calls against an
    empty ledger are all answered, and the stored count ends at 1. *)
Lemma ten_simultaneous_scans :
  let calls := (λ t : Z, ("photo.jpg", okAt t)) <$> [1; 2; 3; 4; 5; 6; 7; 8; 9; 10] in
  let all := @simultaneous utc (Some "token") (Some (newUser (Some "free")))
               calls (Some (newUser (Some "free"))) in
  let allowed := length (filter (λ c, isReturned c = true) all.1.1) in
  allowed = 10%nat
  ∧ length all.2 = 10%nat
  ∧ @todayCount utc all.1.2 0 = 1
  ∧ ¬ (allowed = 3%nat ∧ @todayCount utc all.1.2 0 = Z.of_nat allowed).
Proof.
  split; [by vm_compute |]. split; [by vm_compute |].
  split; [by vm_compute |]. intros [Hc _]. by vm_compute in Hc.
Qed.

(** * Further properties of the code *)

Local Open Scope list_scope.

(** ** Signing in, signing out, starting up *)

Section SessionLife.
Context `{LocalCalendar}.

Lemma signIn_success (invalid fallback token : string) (u : User)
    (a : AuthSession.Auth) (s : AuthSession.Store) :
  token ≠ "" →
  AuthSession.signIn invalid fallback
    (AuthSession.Answered (Some token) (Some u))
    AuthSession.Done AuthSession.Done a s
  = (AuthSession.succeeded,
     {| AuthSession.user := Some u; AuthSession.authToken := Some token;
        AuthSession.isLoading := false |},
     {| AuthSession.authTokenItem := Some token;
        AuthSession.userDataItem := Some (AuthSession.Json u) |}).
Proof. intros Ht. unfold AuthSession.signIn. by rewrite decide_False. Qed.

Lemma signIns_signIn f :
  f ∈ AuthSession.signIns → ∃ invalid fallback,
    invalid ≠ "" ∧ fallback ≠ "" ∧ f = AuthSession.signIn invalid fallback.
Proof.
  unfold AuthSession.signIns. rewrite !elem_of_cons, elem_of_nil.
  intros [-> | [-> | [-> | []]]];
    [ exists "Invalid response from server", "Login failed"
    | exists "Registration failed", "Registration failed"
    | exists "Google login failed", "Google login failed" ];
    by repeat split.
Qed.

Lemma signIn_relaunch (invalid fallback token : string) (u : User)
    (a : AuthSession.Auth) (s : AuthSession.Store) :
  token ≠ "" →
  let '(outcome, a', s') :=
    AuthSession.signIn invalid fallback
      (AuthSession.Answered (Some token) (Some u))
      AuthSession.Done AuthSession.Done a s in
  AuthSession.success outcome = true
  ∧ AuthSession.user a' = Some u
  ∧ AuthSession.authToken a' = Some token
  ∧ AuthSession.isAuthenticated a' = true
  ∧ AuthSession.relaunch s' = a'.
Proof.
  intros Ht. rewrite signIn_success by done.
  repeat split. unfold AuthSession.relaunch, AuthSession.loadStoredAuth.
  cbn. by rewrite decide_False.
Qed.

Lemma signIn_outcome (invalid fallback : string)
    (response : AuthSession.AuthResponse)
    (w1 w2 : AuthSession.IO) (a : AuthSession.Auth) (s : AuthSession.Store) :
  invalid ≠ "" → fallback ≠ "" →
  let '(outcome, a', s') :=
    AuthSession.signIn invalid fallback response w1 w2 a s in
  (AuthSession.success outcome = true ↔
     ∃ token u, response = AuthSession.Answered (Some token) (Some u)
                ∧ token ≠ "" ∧ w1 = AuthSession.Done ∧ w2 = AuthSession.Done)
  ∧ (AuthSession.success outcome = false →
       AuthSession.user a' = AuthSession.user a
       ∧ AuthSession.authToken a' = AuthSession.authToken a
       ∧ ∃ message, AuthSession.error outcome = Some message ∧ message ≠ "")
  ∧ AuthSession.isLoading a' = false.
Proof.
  intros Hi Hfb.
  assert (Hor : ∀ m, AuthSession.orElse m fallback ≠ "").
  { intros m. unfold AuthSession.orElse. by case_decide. }
  unfold AuthSession.signIn.
  destruct response as [[token |] [u |] | m]; cbn;
    try case_decide; try destruct w1; try destruct w2; cbn;
    (split;
     [ split;
       [ intros Hs; first [discriminate Hs | eexists _, _; by repeat split]
       | intros (? & ? & ? & ? & ? & ?); by simplify_eq ]
     | split;
       [ intros Hs; first
           [ discriminate Hs
           | split; [done | split; [done | eexists; split; [done |];
                                           first [apply Hor | exact Hi]]] ]
       | done ] ]).
Qed.

(** X1.  When [login], [register] or [googleLogin] gets a token and a
    user from the server and both writes to SecureStore succeed, it
    reports success, the provider holds that user and token, and the
    store holds the same: closing and reopening the app restores
    exactly the session the sign-in left. *)
Theorem signIn_survives_relaunch f (token : string) (u : User)
    (a : AuthSession.Auth) (s : AuthSession.Store) :
  f ∈ AuthSession.signIns → token ≠ "" →
  let '(outcome, a', s') :=
    f (AuthSession.Answered (Some token) (Some u))
      AuthSession.Done AuthSession.Done a s in
  AuthSession.success outcome = true
  ∧ AuthSession.user a' = Some u
  ∧ AuthSession.authToken a' = Some token
  ∧ AuthSession.isAuthenticated a' = true
  ∧ AuthSession.relaunch s' = a'.
Proof.
  intros Hf Ht. destruct (signIns_signIn f Hf) as (i & fb & _ & _ & ->).
  by apply signIn_relaunch.
Qed.

(** X2.  A sign-in succeeds exactly when the server's answer carries a
    non-empty token and a user and both writes to SecureStore succeed.
    In every other case it reports failure with a non-empty error
    message and leaves the provider's user and token as they were.  In
    all cases the loading flag ends lowered. *)
Theorem signIn_failure_keeps_session f (response : AuthSession.AuthResponse)
    (w1 w2 : AuthSession.IO) (a : AuthSession.Auth) (s : AuthSession.Store) :
  f ∈ AuthSession.signIns →
  let '(outcome, a', s') := f response w1 w2 a s in
  (AuthSession.success outcome = true ↔
     ∃ token u, response = AuthSession.Answered (Some token) (Some u)
                ∧ token ≠ "" ∧ w1 = AuthSession.Done ∧ w2 = AuthSession.Done)
  ∧ (AuthSession.success outcome = false →
       AuthSession.user a' = AuthSession.user a
       ∧ AuthSession.authToken a' = AuthSession.authToken a
       ∧ ∃ message, AuthSession.error outcome = Some message ∧ message ≠ "")
  ∧ AuthSession.isLoading a' = false.
Proof.
  intros Hf. destruct (signIns_signIn f Hf) as (i & fb & Hi & Hfb & ->).
  by apply signIn_outcome.
Qed.

(** X3.  When the token is written and the write of the user data
    rejects, the sign-in fails and the provider keeps its session, but
    the store now pairs the new token with the user data it held
    before: reopening the app signs in with the new token and the
    previous user. *)
Theorem signIn_half_written f (token message : string) (u previous : User)
    (a : AuthSession.Auth) (s : AuthSession.Store) :
  f ∈ AuthSession.signIns → token ≠ "" →
  AuthSession.userDataItem s = Some (AuthSession.Json previous) →
  let '(outcome, a', s') :=
    f (AuthSession.Answered (Some token) (Some u))
      AuthSession.Done (AuthSession.Rejects message) a s in
  AuthSession.success outcome = false
  ∧ AuthSession.user a' = AuthSession.user a
  ∧ AuthSession.authToken a' = AuthSession.authToken a
  ∧ AuthSession.relaunch s'
    = {| AuthSession.user := Some previous;
         AuthSession.authToken := Some token;
         AuthSession.isLoading := false |}.
Proof.
  intros Hf Ht Hs. destruct (signIns_signIn f Hf) as (i & fb & _ & _ & ->).
  unfold AuthSession.signIn. rewrite decide_False by done. cbn.
  repeat split. unfold AuthSession.relaunch, AuthSession.loadStoredAuth.
  cbn. rewrite Hs. by rewrite decide_False.
Qed.


(** X5.  Starting up restores a user exactly when the store holds a
    non-empty token and user data that parses to a user; the restored
    session is then that token and that user.  With a non-empty token
    and user data that is not empty but does not parse, or parses to
    [null] or another falsy value, the provider ends with the token
    set and nobody authenticated.  With no token, an empty token, no
    user data or empty user data, neither is set.  When a read of the
    store rejects, user and token stay as they were.  In every case
    the loading flag ends lowered. *)
Theorem relaunch_restores (s : AuthSession.Store) :
  (AuthSession.isAuthenticated (AuthSession.relaunch s) = true ↔
     ∃ token u, AuthSession.authTokenItem s = Some token ∧ token ≠ ""
                ∧ AuthSession.userDataItem s = Some (AuthSession.Json u))
  ∧ (∀ token u,
       AuthSession.authTokenItem s = Some token → token ≠ "" →
       AuthSession.userDataItem s = Some (AuthSession.Json u) →
       AuthSession.relaunch s
       = {| AuthSession.user := Some u; AuthSession.authToken := Some token;
            AuthSession.isLoading := false |})
  ∧ (∀ token,
       AuthSession.authTokenItem s = Some token → token ≠ "" →
       AuthSession.userDataItem s = Some AuthSession.Garbled
       ∨ AuthSession.userDataItem s = Some AuthSession.JsonFalsy →
       AuthSession.relaunch s
       = {| AuthSession.user := None; AuthSession.authToken := Some token;
            AuthSession.isLoading := false |})
  ∧ (AuthSession.authTokenItem s = None
     ∨ AuthSession.authTokenItem s = Some ""
     ∨ AuthSession.userDataItem s = None
     ∨ AuthSession.userDataItem s = Some AuthSession.EmptyText →
       AuthSession.relaunch s
       = {| AuthSession.user := None; AuthSession.authToken := None;
            AuthSession.isLoading := false |})
  ∧ (∀ (r1 r2 : AuthSession.IO) (a : AuthSession.Auth),
       let a' := AuthSession.loadStoredAuth r1 r2 s a in
       AuthSession.isLoading a' = false
       ∧ (r1 ≠ AuthSession.Done ∨ r2 ≠ AuthSession.Done →
            AuthSession.user a' = AuthSession.user a
            ∧ AuthSession.authToken a' = AuthSession.authToken a)).
Proof.
  unfold AuthSession.relaunch, AuthSession.loadStoredAuth.
  split; [| split; [| split; [| split]]].
  - destruct s as [[token |] [[u | | |] |]]; cbn; try case_decide;
      (split; [try done; intros _; eauto 10
              | by intros (? & ? & ? & ? & ?); simplify_eq]).
  - intros token u -> Ht ->. by rewrite decide_False.
  - intros token -> Ht [-> | ->]; by rewrite decide_False.
  - intros [-> | [-> | [-> | ->]]]; try done.
    + by destruct (AuthSession.userDataItem s).
    + by destruct (AuthSession.authTokenItem s).
    + destruct (AuthSession.authTokenItem s); [by case_decide | done].
  - intros r1 r2 a. cbn zeta. split.
    + destruct r1, r2; try done.
      destruct (AuthSession.authTokenItem s), (AuthSession.userDataItem s)
        as [[] |]; try done; by case_decide.
    + intros [Hr | Hr]; destruct r1, r2; done.
Qed.

End SessionLife.

(** ** Sightings and the community feed *)

Section Lists.
Import BirdLists.

(** X6.  [deleteSighting] returns [true] exactly when there is a token
    and the request succeeds.  The list then holds exactly the
    sightings with another id, in their previous order, and deleting
    the same id again leaves it as it is; when it returns [false] the
    list is unchanged.  Without a token no request is sent. *)
Theorem deleteSighting_removes (authToken : option string)
    (sightingId : string) (response : Js.completion unit)
    (sightings : list Sighting) :
  let '(ok, after, sent) :=
    deleteSighting authToken sightingId response sightings in
  (ok = true ↔ noToken authToken = false ∧ isReturned response = true)
  ∧ (ok = true →
       (∀ s, s ∈ after ↔ s ∈ sightings ∧ sighting_id s ≠ sightingId)
       ∧ (deleteSighting authToken sightingId response after).1.2 = after)
  ∧ (ok = false → after = sightings)
  ∧ after `sublist_of` sightings
  ∧ (noToken authToken = true → sent = []).
Proof.
  unfold deleteSighting. destruct (noToken authToken) eqn:Ht.
  { split; [split; [done | by intros [? _]] |]. by repeat split. }
  destruct response as [[] | message]; cbn.
  - split; [done |]. split; [| split; [done | split; [| done]]].
    + intros _. split.
      * intros s. rewrite list_elem_of_filter. tauto.
      * cbn. apply list_filter_filter_l. tauto.
    + apply sublist_filter.
  - split; [split; [done | by intros [_ ?]] |]. by repeat split.
Qed.

(** X7.  [likePost] never adds, drops or reorders posts.  When it
    returns [true] every post with the given id shows the number of
    likes the server answered and every other post is what it was;
    when it returns [false] (no token, a failed request, an answer
    without [likes]) the feed is unchanged. *)
Theorem likePost_updates (authToken : option string) (postId : string)
    (response : Js.completion (option Z)) (communityFeed : list Post) :
  let '(ok, after, sent) := likePost authToken postId response communityFeed in
  post_id <$> after = post_id <$> communityFeed
  ∧ (ok = true →
       ∃ n, response = Js.Returned (Some n)
            ∧ ∀ i before, communityFeed !! i = Some before →
                ∃ post, after !! i = Some post
                  ∧ (post_id before = postId → likes post = n)
                  ∧ (post_id before ≠ postId → post = before)
                  ∧ user_name post = user_name before
                  ∧ caption post = caption before
                  ∧ post_timestamp post = post_timestamp before)
  ∧ (ok = false → after = communityFeed).
Proof.
  unfold likePost. destruct (noToken authToken); [by repeat split |].
  destruct response as [[n |] | message]; cbn; [| by repeat split ..].
  split; [| split; [| done]].
  - rewrite <- list_fmap_compose. apply list_fmap_ext.
    intros i p _. cbn. by case_decide.
  - intros _. exists n. split; [done |]. intros i before Hi.
    rewrite list_lookup_fmap, Hi. cbn. eexists; split; [done |].
    case_decide; by repeat split.
Qed.

(** The posts an answer adds to the feed. *)
Lemma getCommunityFeed_page (limit offset : Z)
    (response : Js.completion FeedBody) (communityFeed : list Post) :
  (getCommunityFeed limit offset response communityFeed).1.2
  = match response with
    | Js.Returned body =>
        (if decide (offset = 0) then [] else communityFeed)
        ++ default [] (posts body)
    | Js.Thrown _ => communityFeed
    end.
Proof.
  unfold getCommunityFeed. destruct response; cbn; [| done]. by case_decide.
Qed.

Lemma scroll_appends (answers : list (Js.completion FeedBody)) :
  ∀ communityFeed,
    (scroll answers communityFeed).1
    = communityFeed ++ concat (payload <$> answers)
    ∧ length (scroll answers communityFeed).2 = length answers.
Proof.
  induction answers as [| response answers IH]; intros feed; cbn.
  { by rewrite app_nil_r. }
  unfold loadMorePosts.
  pose proof (getCommunityFeed_page 20 (Z.of_nat (length feed)) response feed)
    as Hp.
  destruct (getCommunityFeed _ _ _ _) as [[body feed1] sent1] eqn:Hg.
  cbn in Hp. destruct (IH feed1) as [Hf Hl].
  destruct (scroll answers feed1) as [feed2 sent2]. cbn in *.
  assert (Hs : length sent1 = 1%nat).
  { unfold getCommunityFeed in Hg. destruct response; by simplify_eq. }
  split; [| rewrite length_app; lia].
  rewrite Hf, Hp, app_assoc. f_equal.
  destruct response as [body' | message]; cbn; [| by rewrite app_nil_r].
  case_decide as H0; [| done]. by destruct feed.
Qed.

(** X8.  Opening the feed and scrolling gives the pages the server
    answered with, one after the other in the order they were asked
    for: the first page replaces what was shown, and every further
    answer is appended.  An answer that fails or has no posts adds
    nothing and loses nothing; if the first request fails, the posts
    shown before stay.  One request is sent for every page, the first
    for offset 0. *)
Theorem feed_is_pages_in_order (first : Js.completion FeedBody)
    (answers : list (Js.completion FeedBody)) (communityFeed : list Post) :
  let '(feed, sent) := openFeed first answers communityFeed in
  feed = (if isReturned first then [] else communityFeed)
         ++ payload first ++ concat (payload <$> answers)
  ∧ length sent = S (length answers)
  ∧ head sent = Some (CommunityFeedRequest 20 0).
Proof.
  unfold openFeed, loadFeed.
  pose proof (getCommunityFeed_page 20 0 first communityFeed) as Hp.
  destruct (getCommunityFeed _ _ _ _) as [[body feed1] sent1] eqn:Hg.
  cbn in Hp. destruct (scroll_appends answers feed1) as [Hf Hl].
  destruct (scroll answers feed1) as [feed2 sent2]. cbn in *.
  assert (Hs : sent1 = [CommunityFeedRequest 20 0]).
  { unfold getCommunityFeed in Hg. destruct first; by simplify_eq. }
  subst sent1. cbn. split; [| by rewrite Hl].
  rewrite Hf, Hp. destruct first; cbn; by rewrite ?app_nil_r.
Qed.

End Lists.

(** ** Regular expressions and the e-mail check *)

Section Regexes.
Import Text.

Lemma lang_nil_nullable (r : regex) (s : list ascii) :
  lang r s → s = [] → nullable r = true.
Proof.
  induction 1 as [| | r1 r2 s1 s2 _ IH1 _ IH2 | r1 r2 s _ IH | r1 r2 s _ IH
                  | | r s1 s2 _ _ _ _]; intros Hs; cbn; try done.
  - apply app_eq_nil in Hs as [-> ->]. by rewrite IH1, IH2.
  - by rewrite IH.
  - rewrite IH by done. apply orb_true_r.
Qed.

Lemma nullable_lang (r : regex) : nullable r = true ↔ lang r [].
Proof.
  split; [| intros Hl; by apply (lang_nil_nullable r [])].
  induction r as [| | p | r1 IH1 r2 IH2 | r1 IH1 r2 IH2 | r IH]; cbn;
    try done.
  - intros _. constructor.
  - intros [H1 H2]%andb_true_iff.
    apply (lang_seq r1 r2 [] []); auto.
  - intros [H1 | H2]%orb_true_iff; [apply lang_alt_l | apply lang_alt_r]; auto.
  - intros _. constructor.
Qed.

Lemma lang_seq_inv (r1 r2 : regex) (s : list ascii) :
  lang (Seq r1 r2) s → ∃ s1 s2, s = s1 ++ s2 ∧ lang r1 s1 ∧ lang r2 s2.
Proof. inversion 1; subst. by eexists _, _. Qed.

(** A non-empty match of [r*] starts with a non-empty match of [r]. *)
Lemma lang_star_uncons (r : regex) (c : ascii) (s : list ascii) :
  lang (Star r) (c :: s) →
  ∃ s1 s2, s = s1 ++ s2 ∧ lang r (c :: s1) ∧ lang (Star r) s2.
Proof.
  intros Hl. remember (Star r) as r' eqn:Hr. remember (c :: s) as s' eqn:Hs.
  revert c s Hr Hs.
  induction Hl as [| | | | | | r0 s1 s2 H1 _ H2 IH2]; intros c0 s0 Hr Hs;
    try done.
  injection Hr as ->. destruct s1 as [| c1 s1]; cbn in Hs.
  - by apply IH2.
  - injection Hs as <- <-. by exists s1, s2.
Qed.

Lemma derive_lang (c : ascii) (r : regex) :
  ∀ s, lang (derive c r) s ↔ lang r (c :: s).
Proof.
  induction r as [| | p | r1 IH1 r2 IH2 | r1 IH1 r2 IH2 | r IH]; intros s; cbn.
  - split; inversion 1.
  - split; inversion 1.
  - destruct (p c) eqn:Hp; split; inversion 1; subst.
    + by constructor.
    + constructor.
    + congruence.
  - assert (Hseq : lang (Seq (derive c r1) r2) s ↔
                   ∃ s1 s2, s = s1 ++ s2 ∧ lang r1 (c :: s1) ∧ lang r2 s2).
    { split.
      - intros (s1 & s2 & -> & H1 & H2)%lang_seq_inv.
        exists s1, s2. split; [done |]. split; [by apply IH1 | done].
      - intros (s1 & s2 & -> & H1 & H2). constructor; [by apply IH1 | done]. }
    assert (Hsplit : lang (Seq r1 r2) (c :: s) ↔
                     (∃ s1 s2, s = s1 ++ s2 ∧ lang r1 (c :: s1) ∧ lang r2 s2)
                     ∨ (lang r1 [] ∧ lang r2 (c :: s))).
    { split.
      - intros (s1 & s2 & Hs & H1 & H2)%lang_seq_inv.
        destruct s1 as [| c1 s1]; cbn in Hs.
        + right. by subst.
        + injection Hs as -> ->. left. by exists s1, s2.
      - intros [(s1 & s2 & -> & H1 & H2) | [H1 H2]].
        + by apply (lang_seq r1 r2 (c :: s1) s2).
        + by apply (lang_seq r1 r2 [] (c :: s)). }
    rewrite Hsplit. destruct (nullable r1) eqn:Hn.
    + split.
      * inversion 1; subst; [left; by apply Hseq | right].
        split; [by apply nullable_lang | by apply IH2].
      * intros [Hl | [_ Hr]]; [apply lang_alt_l; by apply Hseq |].
        apply lang_alt_r. by apply IH2.
    + rewrite Hseq. split; [by left |]. intros [Hl | [Hr _]]; [done |].
      apply nullable_lang in Hr. congruence.
  - split.
    + inversion 1; subst; [apply lang_alt_l; by apply IH1
                          | apply lang_alt_r; by apply IH2].
    + inversion 1; subst; [apply lang_alt_l; by apply IH1
                          | apply lang_alt_r; by apply IH2].
  - split.
    + inversion 1; subst.
      apply (lang_star_more r (c :: _)); [by apply IH | done].
    + intros (s1 & s2 & -> & H1 & H2)%lang_star_uncons.
      constructor; [by apply IH | done].
Qed.

(** Matching by derivatives decides membership. *)
Lemma test_lang (s : list ascii) : ∀ r, test r s = true ↔ lang r s.
Proof.
  induction s as [| c s IH]; intros r; cbn.
  - apply nullable_lang.
  - rewrite IH. apply derive_lang.
Qed.

Lemma lang_star_class (p : ascii → bool) (s : list ascii) :
  lang (Star (Class p)) s ↔ Forall (λ c, p c = true) s.
Proof.
  split.
  - intros Hl. remember (Star (Class p)) as r eqn:Hr.
    induction Hl as [| | | | | | r0 s1 s2 H1 _ _ IH2]; try done.
    injection Hr as ->. inversion H1; subst. constructor; auto.
  - induction 1 as [| c s Hc _ IH]; [constructor |].
    apply (lang_star_more (Class p) [c] s); [by constructor | done].
Qed.

Lemma lang_plus_class (p : ascii → bool) (s : list ascii) :
  lang (Plus (Class p)) s ↔ s ≠ [] ∧ Forall (λ c, p c = true) s.
Proof.
  unfold Plus. split.
  - intros (s1 & s2 & -> & H1 & H2)%lang_seq_inv. inversion H1; subst.
    apply lang_star_class in H2. split; [done | by constructor].
  - intros [Hne Hall]. destruct Hall as [| c s Hc Hs]; [done |].
    apply (lang_seq (Class p) _ [c] s); [by constructor |].
    by apply lang_star_class.
Qed.

Lemma lang_only (x : ascii) (s : list ascii) :
  lang (Class (only x)) s ↔ s = [x].
Proof.
  split.
  - inversion 1 as [| ? c Hc | | | | |]; subst.
    unfold only in Hc. by apply Ascii.eqb_eq in Hc as ->.
  - intros ->. constructor. unfold only. apply Ascii.eqb_refl.
Qed.

Lemma notSpaceNorAt_spec (c : ascii) :
  notSpaceNorAt c = true ↔ isWhiteSpace c = false ∧ c ≠ "@"%char.
Proof.
  unfold notSpaceNorAt.
  rewrite andb_true_iff, !negb_true_iff, Ascii.eqb_neq. tauto.
Qed.

(** X9.  [isValidEmail] accepts exactly the addresses of the form
    local@domain.tld in which the three parts are non-empty and hold
    neither white space nor a further "@"; the domain and the tld may
    themselves hold dots. *)
Theorem isValidEmail_spec (email : string) :
  Api.isValidEmail email = true ↔
  ∃ localPart domain tld : list ascii,
    codeUnits email = localPart ++ ["@"%char] ++ domain ++ ["."%char] ++ tld
    ∧ localPart ≠ [] ∧ domain ≠ [] ∧ tld ≠ []
    ∧ Forall (λ c, isWhiteSpace c = false ∧ c ≠ "@"%char)
        (localPart ++ domain ++ tld).
Proof.
  unfold Api.isValidEmail. rewrite test_lang. unfold emailRegex.
  setoid_rewrite Forall_app. setoid_rewrite Forall_app. split.
  - intros (l & s1 & -> & Hl & H1)%lang_seq_inv.
    apply lang_seq_inv in H1 as (a & s2 & -> & Ha & H2).
    apply lang_seq_inv in H2 as (d & s3 & -> & Hd & H3).
    apply lang_seq_inv in H3 as (b & t & -> & Hb & Ht).
    apply lang_only in Ha as ->. apply lang_only in Hb as ->.
    apply lang_plus_class in Hl as [? Hl], Hd as [? Hd], Ht as [? Ht].
    exists l, d, t. repeat split; try done;
      (eapply Forall_impl; [eassumption |]; intros c Hc;
       by apply notSpaceNorAt_spec).
  - intros (l & d & t & -> & ? & ? & ? & Hl & Hd & Ht).
    assert (Hplus : ∀ s, s ≠ [] →
              Forall (λ c, isWhiteSpace c = false ∧ c ≠ "@"%char) s →
              lang (Plus (Class notSpaceNorAt)) s).
    { intros s Hne Hs. apply lang_plus_class. split; [done |].
      eapply Forall_impl; [exact Hs |]. intros c Hc.
      by apply notSpaceNorAt_spec. }
    apply lang_seq; [by apply Hplus |].
    apply lang_seq; [by apply lang_only |].
    apply lang_seq; [by apply Hplus |].
    apply lang_seq; [by apply lang_only | by apply Hplus].
Qed.

End Regexes.

(** ** The login screen *)

Section Login.
Import LoginScreen.

Lemma validateForm_verdict (screen : Screen) :
  let f := formData screen in
  let '(valid, shown) := validateForm screen in
  (valid = true ↔
     email f ≠ "" ∧ password f ≠ ""
     ∧ Api.isValidEmail (email f) = true
     ∧ (6 ≤ String.length (password f))%nat
     ∧ (isLogin screen = false →
          fullName f ≠ "" ∧ password f = confirmPassword f))
  ∧ (valid = true → shown = [])
  ∧ (valid = false → ∃ message, shown = [ShowError message]).
Proof.
  unfold validateForm. cbn zeta.
  destruct (decide (email (formData screen) = "" ∨ password (formData screen) = ""))
    as [Hb | Hb].
  { split; [split; [done | intros (? & ? & _); tauto] |]. split; [done | eauto]. }
  assert (He : email (formData screen) ≠ "") by tauto.
  assert (Hp : password (formData screen) ≠ "") by tauto.
  destruct (Api.isValidEmail (email (formData screen))) eqn:Hv; cbn [negb].
  2: { split; [split; [done | by intros (_ & _ & ? & _)] |].
       split; [done | eauto]. }
  destruct (String.length (password (formData screen)) <? 6)%nat eqn:Hl; cbn iota.
  { apply Nat.ltb_lt in Hl.
    split; [split; [done | intros (_ & _ & _ & ? & _); lia] |].
    split; [done | eauto]. }
  apply Nat.ltb_ge in Hl. destruct (isLogin screen) eqn:Hm; cbn iota.
  { split; [split; [by intros _ | done] |]. by split. }
  case_decide as Hn.
  { split; [split; [done | intros (_ & _ & _ & _ & Hr); by destruct Hr] |].
    split; [done | eauto]. }
  case_decide as Hc.
  { split; [split; [done | intros (_ & _ & _ & _ & Hr); by destruct Hr] |].
    split; [done | eauto]. }
  split; [split; [intros _ | done] |]; [| by split].
  split; [done |]. split; [done |]. split; [done |]. split; [done |].
  intros _. split; [done |].
  by destruct (decide (password (formData screen)
                       = confirmPassword (formData screen))).
Qed.

(** X10.  [validateForm] accepts a form exactly when e-mail and
    password are filled in, the e-mail passes [isValidEmail], the
    password has 6 characters or more and, when registering, the full
    name is filled in and the two passwords are equal.  An accepted
    form shows nothing; a rejected one shows exactly one error. *)
Theorem validateForm_spec (screen : Screen) :
  let f := formData screen in
  let '(valid, shown) := validateForm screen in
  (valid = true ↔
     email f ≠ "" ∧ password f ≠ ""
     ∧ Api.isValidEmail (email f) = true
     ∧ (6 ≤ String.length (password f))%nat
     ∧ (isLogin screen = false →
          fullName f ≠ "" ∧ password f = confirmPassword f))
  ∧ (valid = true → shown = [])
  ∧ (valid = false → ∃ message, shown = [ShowError message]).
Proof. apply validateForm_verdict. Qed.

(** X11.  [handleSubmit] checks the form before anything else: a
    rejected form sends no request and leaves the provider and the
    store untouched.  An accepted form sends one request, to login or
    to register according to the mode, with the e-mail and password of
    the form.  The screen is replaced by the main tabs only when a
    user is then authenticated and stored, and after [toggleMode] a
    submit is always rejected, the form being blank. *)
Theorem handleSubmit_validates_first (screen : Screen)
    (response : AuthSession.AuthResponse) (w1 w2 : AuthSession.IO)
    (a : AuthSession.Auth) (s : AuthSession.Store) :
  let '(a', s', acts) := handleSubmit screen response w1 w2 a s in
  ((validateForm screen).1 = false →
     a' = a ∧ s' = s ∧ ∃ message, acts = [Ui (ShowError message)])
  ∧ ((validateForm screen).1 = true →
       ∃ outcome,
         acts = [ (if isLogin screen
                   then LoginRequest (email (formData screen))
                          (password (formData screen))
                   else RegisterRequest (email (formData screen))
                          (password (formData screen))
                          (fullName (formData screen)));
                  outcome ]
         ∧ (outcome = Replace "MainTabs"
            ∨ ∃ message, outcome = Ui (ShowError message) ∧ message ≠ ""))
  ∧ (Replace "MainTabs" ∈ acts →
       AuthSession.isAuthenticated a' = true ∧ AuthSession.relaunch s' = a')
  ∧ handleSubmit (toggleMode screen) response w1 w2 a s
    = (a, s, [Ui (ShowError "Please fill in all required fields")]).
Proof.
  assert (Htoggle : handleSubmit (toggleMode screen) response w1 w2 a s
            = (a, s, [Ui (ShowError "Please fill in all required fields")])).
  { done. }
  unfold handleSubmit.
  pose proof (validateForm_verdict screen) as Hv. cbn zeta in Hv.
  destruct (validateForm screen) as [[] shown]; cbn [negb fst];
    destruct Hv as (_ & Hok & Hbad).
  - set (f := if isLogin screen then AuthSession.login else AuthSession.register).
    assert (Hf : f ∈ AuthSession.signIns).
    { unfold f, AuthSession.signIns. destruct (isLogin screen); repeat constructor. }
    destruct (signIns_signIn f Hf) as (i & fb & Hi & Hfb & Hfeq).
    pose proof (signIn_outcome i fb response w1 w2 a s Hi Hfb) as Hs.
    rewrite <- Hfeq in Hs.
    replace (if isLogin screen then AuthSession.login response w1 w2 a s
             else AuthSession.register response w1 w2 a s)
      with (f response w1 w2 a s) by (unfold f; by destruct (isLogin screen)).
    destruct (f response w1 w2 a s) as [[outcome a'] s'] eqn:Hrun.
    destruct Hs as (Hsucc & Hfail & _).
    destruct (AuthSession.success outcome) eqn:Ho.
    + split; [done |]. split; [| split; [| exact Htoggle]].
      * intros _. eexists. split; [done |]. by left.
      * intros _.
        destruct (proj1 Hsucc eq_refl) as (token & u & -> & Ht & -> & ->).
        pose proof (signIn_relaunch i fb token u a s Ht) as Hr.
        rewrite <- Hfeq, Hrun in Hr. by destruct Hr as (_ & _ & _ & ? & ?).
    + split; [done |]. split; [| split; [| exact Htoggle]].
      * intros _. eexists. split; [done |]. right.
        destruct (Hfail eq_refl) as (_ & _ & m & -> & Hm).
        exists m. split; [| done]. cbn. by rewrite decide_False.
      * intros Hin. exfalso.
        repeat (apply elem_of_cons in Hin as [Hin | Hin];
                [by destruct (isLogin screen) |]).
        by apply elem_of_nil in Hin.
  - destruct (Hbad eq_refl) as [m ->]. cbn.
    split; [by eauto |]. split; [done |]. split; [| exact Htoggle].
    intros Hin. exfalso.
    apply elem_of_cons in Hin as [Hin | Hin]; [done |].
    by apply elem_of_nil in Hin.
Qed.

End Login.

(** ** What the settings screen shows and what the gates grant *)

Section Badge.
Import SettingsScreen.
Context `{LocalCalendar}.

(** X12.  The badge of the settings screen and the gates read the same
    plan but do not always agree.  When the badge says Premium the
    user is premium: every listed feature is granted and scans are
    unlimited.  A free user sees "Free Plan" and is denied.  A user
    whose plan is any other non-empty text also sees "Free Plan",
    [formatPlanName] calls the plan "Unknown Plan", and yet every
    listed feature is granted and scans are unlimited. *)
Theorem badge_and_gates (u : User) (feature : string) (now : Z) :
  feature ∈ enumeratedFeatures →
  (name (getSubscriptionDisplay (Some u)) ≠ "Free Plan" →
     isPremium (Some u)
     ∧ canAccessPremiumFeature (Some u) feature = Js.Bool true
     ∧ getRemainingScans (Some u) now = -1)
  ∧ (isFree (Some u) →
       name (getSubscriptionDisplay (Some u)) = "Free Plan"
       ∧ Api.formatPlanName (checkSubscriptionStatus (Some u)) = "Free Plan"
       ∧ canAccessPremiumFeature (Some u) feature = Js.Bool false)
  ∧ (¬ isFree (Some u) → ¬ isPremium (Some u) →
       name (getSubscriptionDisplay (Some u)) = "Free Plan"
       ∧ Api.formatPlanName (checkSubscriptionStatus (Some u)) = "Unknown Plan"
       ∧ canAccessPremiumFeature (Some u) feature = Js.Bool true
       ∧ getRemainingScans (Some u) now = -1).
Proof.
  intros Hl.
  assert (Hgrant : ¬ isFree (Some u) →
            canAccessPremiumFeature (Some u) feature = Js.Bool true).
  { intros Hf. unfold canAccessPremiumFeature. rewrite decide_False by done.
    unfold Js.get. by rewrite (premiumFeatures_listed _ Hl). }
  unfold getSubscriptionDisplay, Api.formatPlanName, isPremium, isFree in *.
  split; [| split].
  - intros Hn. repeat case_decide; try done;
      (split; [by auto |]); (split; [apply Hgrant; congruence |]);
      apply getRemainingScans_not_free; unfold isFree; congruence.
  - intros Hf. rewrite Hf. split; [done |]. split; [done |].
    by apply canAccessPremiumFeature_free.
  - intros Hf Hp. repeat case_decide; try tauto.
    split; [done |]. split; [done |]. split; [by apply Hgrant |].
    by apply getRemainingScans_not_free.
Qed.

End Badge.

(** ** The age of a post *)

Section Ages.
Import CommunityFeedScreen.

(** X13.  [formatTimeAgo] goes by the age of the post in milliseconds.
    Under a minute, and for a post dated in the future, it says "Just
    now"; from a minute on it counts whole minutes, from 1 to 59; from
    an hour on whole hours, from 1 to 23; from a day on whole days,
    from 1 to 6; from seven days on it prints the date. *)
Theorem timeAgo_buckets (now timestamp : Z) :
  let age := now - timestamp in
  (age < 60000 → timeAgo now timestamp = JustNow)
  ∧ (60000 ≤ age < 3600000 →
       timeAgo now timestamp = Minutes (age `div` 60000)
       ∧ 1 ≤ age `div` 60000 ≤ 59)
  ∧ (3600000 ≤ age < 86400000 →
       timeAgo now timestamp = Hours (age `div` 3600000)
       ∧ 1 ≤ age `div` 3600000 ≤ 23)
  ∧ (86400000 ≤ age < 604800000 →
       timeAgo now timestamp = Days (age `div` 86400000)
       ∧ 1 ≤ age `div` 86400000 ≤ 6)
  ∧ (604800000 ≤ age → timeAgo now timestamp = OnDate timestamp).
Proof.
  cbn zeta. set (age := now - timestamp). unfold timeAgo. fold age.
  change (1000 * 60) with 60000.
  assert (Hh : (age `div` 60000) `div` 60 = age `div` 3600000).
  { rewrite Z.div_div by lia. done. }
  assert (Hd : ((age `div` 60000) `div` 60) `div` 24 = age `div` 86400000).
  { rewrite Hh, Z.div_div by lia. done. }
  rewrite Hd, Hh.
  pose proof (Z.div_lt_upper_bound age 60000 1).
  pose proof (Z.div_lt_upper_bound age 60000 60).
  pose proof (Z.div_lt_upper_bound age 3600000 24).
  pose proof (Z.div_lt_upper_bound age 86400000 7).
  pose proof (Z.div_le_lower_bound age 60000 1).
  pose proof (Z.div_le_lower_bound age 60000 60).
  pose proof (Z.div_le_lower_bound age 3600000 1).
  pose proof (Z.div_le_lower_bound age 3600000 24).
  pose proof (Z.div_le_lower_bound age 86400000 1).
  pose proof (Z.div_le_lower_bound age 86400000 7).
  repeat split; intros; repeat case_decide; try done; try lia.
Qed.

End Ages.

(** ** The sightings shown, their order and their statistics *)

Section Shown.
Import BirdLists SightingsList.
Context `{Engine}.

Lemma sort_Permutation {A} (compare : A → A → comparison) (l : list A) :
  sort compare l ≡ₚ l.
Proof. apply merge_sort_Permutation. Qed.

Lemma filter_all {A} (P : A → Prop) `{∀ x, Decision (P x)} (l : list A) :
  (∀ x, P x) → filter P l = l.
Proof.
  intros HP. induction l as [| x l IH]; [done |].
  by rewrite filter_cons_True, IH.
Qed.

(** The sightings that pass the search and the period. *)
Lemma filterAndSortSightings_filtered (sightings : list Sighting)
    (searchQuery filterBy sortBy : string) (now : Z) :
  filterAndSortSightings sightings searchQuery filterBy sortBy now
  ≡ₚ filter (λ s, (searchQuery = "" ∨ matchesQuery searchQuery s = true)
                  ∧ (filterBy = "this_week" → since now week s = true)
                  ∧ (filterBy = "this_month" → since now month s = true))
       sightings.
Proof.
  unfold filterAndSortSightings. rewrite sort_Permutation.
  match goal with |- ?a ≡ₚ ?b => assert (a = b) as ->; [| done] end.
  repeat case_decide; subst; rewrite ?list_filter_filter;
    first [ apply list_filter_iff; intros s; intuition congruence
          | symmetry; apply filter_all; intros s; intuition congruence ].
Qed.

(** X14.  The sightings screen shows exactly the sightings that pass
    the search (when one is typed) and the chosen period, each as
    often as it occurs in the list and never more; with no search and
    no period it shows all of them, whatever the order chosen. *)
Theorem filterAndSortSightings_shows (sightings : list Sighting)
    (searchQuery filterBy sortBy : string) (now : Z) :
  let shown :=
    filterAndSortSightings sightings searchQuery filterBy sortBy now in
  (∀ s, s ∈ shown ↔
          s ∈ sightings
          ∧ (searchQuery = "" ∨ matchesQuery searchQuery s = true)
          ∧ (filterBy = "this_week" → since now week s = true)
          ∧ (filterBy = "this_month" → since now month s = true))
  ∧ shown ⊆+ sightings
  ∧ (searchQuery = "" → filterBy ≠ "this_week" → filterBy ≠ "this_month" →
       shown ≡ₚ sightings).
Proof.
  cbn zeta.
  pose proof (filterAndSortSightings_filtered sightings searchQuery filterBy
                sortBy now) as Hp.
  split; [| split].
  - intros s. rewrite Hp, list_elem_of_filter. tauto.
  - rewrite Hp. apply sublist_submseteq, sublist_filter.
  - intros Hq Hw Hm. rewrite Hp. rewrite filter_all; [done |].
    intros s. tauto.
Qed.

Lemma StronglySorted_weaken {A} (R R' : A → A → Prop) (l : list A) :
  (∀ a b, R a b → R' a b) → StronglySorted R l → StronglySorted R' l.
Proof.
  intros HR. induction 1 as [| a l _ IH Hall]; constructor; [done |].
  eapply Forall_impl; [exact Hall | auto].
Qed.

Lemma mayPrecede_date (sortBy : string) (a b : Sighting) :
  sortBy ≠ "name" → sortBy ≠ "confidence" →
  mayPrecede (compareBy sortBy) a b ↔ timestamp b ≤ timestamp a.
Proof.
  intros Hn Hc. unfold mayPrecede, compareBy.
  rewrite !decide_False by done. by rewrite Z.compare_le_iff.
Qed.

Lemma mayPrecede_confidence (a b : Sighting) :
  mayPrecede (compareBy "confidence") a b ↔ (confidence b <= confidence a)%Q.
Proof. unfold mayPrecede, compareBy. cbn. by rewrite Qle_alt. Qed.

(** X15.  Ordered by date (the order the screen starts with, and any
    order other than name and confidence) the sightings shown run
    from the newest to the oldest; ordered by confidence they run from
    the highest confidence to the lowest. *)
Theorem filterAndSortSightings_order (sightings : list Sighting)
    (searchQuery filterBy sortBy : string) (now : Z) :
  (sortBy ≠ "name" → sortBy ≠ "confidence" →
     StronglySorted (λ a b, timestamp b ≤ timestamp a)
       (filterAndSortSightings sightings searchQuery filterBy sortBy now))
  ∧ StronglySorted (λ a b, (confidence b <= confidence a)%Q)
      (filterAndSortSightings sightings searchQuery filterBy "confidence" now).
Proof.
  split.
  - intros Hn Hc. unfold filterAndSortSightings, sort.
    eapply StronglySorted_weaken;
      [intros a b; apply (mayPrecede_date sortBy a b Hn Hc) |].
    apply StronglySorted_merge_sort.
    + intros a b c. rewrite !(mayPrecede_date sortBy) by done. lia.
    + intros a b. rewrite !(mayPrecede_date sortBy) by done. lia.
  - unfold filterAndSortSightings, sort.
    eapply StronglySorted_weaken;
      [intros a b; apply (mayPrecede_confidence a b) |].
    apply StronglySorted_merge_sort.
    + intros a b c. rewrite ?mayPrecede_confidence. intros. by eapply Qle_trans.
    + intros a b. rewrite ?mayPrecede_confidence.
      destruct (Qlt_le_dec (confidence a) (confidence b)) as [Hlt | Hle];
        [right; by apply Qlt_le_weak | by left].
Qed.

Lemma filter_narrower {A} (P Q : A → Prop) `{∀ x, Decision (P x)}
    `{∀ x, Decision (Q x)} (l : list A) :
  (∀ x, P x → Q x) → filter P l `sublist_of` filter Q l.
Proof.
  intros HPQ. induction l as [| x l IH]; [done |].
  rewrite !filter_cons. destruct (decide (P x)) as [HP | HP].
  - rewrite decide_True by auto. by constructor.
  - case_decide; [by constructor | done].
Qed.

(** X16.  Whatever is shown for "this week" is also shown for "this
    month", and whatever is shown for "this month" is shown for all
    time, for the same search at the same moment. *)
Theorem week_within_month (sightings : list Sighting)
    (searchQuery sortBy sortBy' sortBy'' : string) (now : Z) :
  filterAndSortSightings sightings searchQuery "this_week" sortBy now
  ⊆+ filterAndSortSightings sightings searchQuery "this_month" sortBy' now
  ∧ filterAndSortSightings sightings searchQuery "this_month" sortBy' now
    ⊆+ filterAndSortSightings sightings searchQuery "all" sortBy'' now.
Proof.
  rewrite !filterAndSortSightings_filtered.
  split; apply sublist_submseteq, filter_narrower; intros s (Hq & Hw & Hm).
  - split; [done |]. split; [by intros [=] |]. intros _.
    specialize (Hw eq_refl). unfold since, week, month in *.
    apply bool_decide_eq_true in Hw. apply bool_decide_eq_true. lia.
  - split; [done |]. split; by intros [=].
Qed.

Lemma remove_dups_sublist {A} `{EqDecision A} (l : list A) :
  remove_dups l `sublist_of` l.
Proof.
  induction l as [| x l IH]; [done |]. cbn.
  case_decide; by constructor.
Qed.

Lemma filter_imap_snd {A} (Q : A → Prop) `{∀ x, Decision (Q x)} (l : list A) :
  ∀ f : nat → nat,
    length (filter (λ p : nat * A, Q p.2) (imap (λ i x, (f i, x)) l))
    = length (filter Q l).
Proof.
  induction l as [| x l IH]; intros f; [done |].
  rewrite imap_cons, !filter_cons. cbn [snd].
  pose proof (IH (f ∘ S)) as IH'. cbn in IH'.
  case_decide; cbn; by rewrite <- IH'.
Qed.

(** X17.  In the statistics of the sightings screen the number of
    species and the number of sightings of this week never exceed the
    total, and the number of species is 0 only for an empty list.
    Read at one instant, "this week" counts exactly the sightings the
    list shows for the period "this week" without a search. *)
Theorem getSightingsStats_bounds (sightings : list Sighting)
    (clock : nat → Z) (sortBy : string) (now : Z) :
  let stats := getSightingsStats sightings clock in
  total stats = length sightings
  ∧ (unique stats ≤ total stats)%nat
  ∧ (thisWeek stats ≤ total stats)%nat
  ∧ (unique stats = 0%nat ↔ sightings = [])
  ∧ thisWeek (getSightingsStats sightings (λ _, now))
    = length (filterAndSortSightings sightings "" "this_week" sortBy now).
Proof.
  cbn zeta. unfold getSightingsStats. cbn [total unique thisWeek].
  assert (Hu : size (list_to_set (bird_id <$> sightings) : gset string)
               = length (remove_dups (bird_id <$> sightings))).
  { rewrite <- (size_list_to_set (C:=gset string))
      by apply NoDup_remove_dups.
    f_equal. apply set_eq. intros x.
    by rewrite !elem_of_list_to_set, elem_of_remove_dups. }
  split; [done |]. split; [| split; [| split]].
  - rewrite Hu. etrans; [apply sublist_length, remove_dups_sublist |].
    by rewrite length_fmap.
  - etrans; [apply length_filter |]. by rewrite length_imap.
  - rewrite size_empty_iff. split.
    + intros He. destruct sightings as [| s l]; [done |].
      exfalso. cbn in He. set_solver.
    + by intros ->.
  - rewrite (Permutation_length (filterAndSortSightings_filtered _ _ _ _ _)).
    transitivity (length (filter (λ s, since now week s = true) sightings));
      [exact (filter_imap_snd (λ s, since now week s = true) sightings id) |].
    f_equal. apply list_filter_iff. intros s. intuition congruence.
Qed.

End Shown.

(** ** Trimming, and posting to the community *)

Section Posting.
Import Text BirdLists CommunityFeedScreen.

Lemma trimStart_head (l : list ascii) (c : ascii) :
  head (trimStart l) = Some c → isWhiteSpace c = false.
Proof.
  induction l as [| x l IH]; [done |]. cbn.
  destruct (isWhiteSpace x) eqn:Hx; [done |]. cbn. by intros [= <-].
Qed.

Lemma trimStart_split (l : list ascii) :
  ∃ k, l = k ++ trimStart l ∧ Forall (λ c, isWhiteSpace c = true) k.
Proof.
  induction l as [| x l (k & Hk & Hall)].
  - by exists [].
  - cbn. destruct (isWhiteSpace x) eqn:Hx.
    + exists (x :: k). split; [cbn; by rewrite <- Hk | by constructor].
    + by exists [].
Qed.

Lemma trimStart_nil (l : list ascii) :
  trimStart l = [] ↔ Forall (λ c, isWhiteSpace c = true) l.
Proof.
  split.
  - intros Hn. destruct (trimStart_split l) as (k & Hk & Hall).
    rewrite Hn, app_nil_r in Hk. by subst.
  - induction 1 as [| x l Hx _ IH]; [done |]. cbn. by rewrite Hx.
Qed.

Lemma codeUnits_trim (s : string) :
  codeUnits (trim s) = reverse (trimStart (reverse (trimStart (codeUnits s)))).
Proof. unfold trim, codeUnits. apply String.list_ascii_of_string_of_list_ascii. Qed.

Lemma codeUnits_nil (s : string) : codeUnits s = [] ↔ s = "".
Proof. unfold codeUnits. by destruct s. Qed.

(** A caption is blank for [trim] exactly when it is made of white
    space only. *)
Lemma trim_blank (s : string) :
  trim s = "" ↔ Forall (λ c, isWhiteSpace c = true) (codeUnits s).
Proof.
  rewrite <- codeUnits_nil, codeUnits_trim.
  rewrite <- trimStart_nil. split.
  - intros Hr. apply (f_equal reverse) in Hr.
    rewrite reverse_involutive, reverse_nil in Hr.
    apply trimStart_nil in Hr. rewrite Forall_reverse in Hr.
    destruct (trimStart (codeUnits s)) as [| c t] eqn:Ht; [done |].
    pose proof (trimStart_head (codeUnits s) c) as Hc. rewrite Ht in Hc.
    apply Forall_cons in Hr as [Hw _]. rewrite Hc in Hw; done.
  - intros ->. done.
Qed.

(** What [trim] returns neither starts nor ends with white space. *)
Lemma trim_ends (s : string) (c : ascii) :
  head (codeUnits (trim s)) = Some c ∨ last (codeUnits (trim s)) = Some c →
  isWhiteSpace c = false.
Proof.
  rewrite codeUnits_trim, head_reverse, last_reverse.
  intros [Hl | Hh]; [| by apply trimStart_head in Hh].
  set (x := trimStart (codeUnits s)) in *.
  destruct (trimStart_split (reverse x)) as (k & Hk & _).
  assert (Hlast : last (reverse x) = Some c).
  { rewrite Hk. destruct (trimStart (reverse x)) as [| y t] eqn:Ht; [done |].
    rewrite last_app. by rewrite Hl. }
  rewrite last_reverse in Hlast. by apply trimStart_head in Hlast.
Qed.

(** X18.  [submitPost] shows exactly one message.  A caption made of
    white space only, or no bird selected, gives an error: nothing is
    sent and the dialog and the feed stay as they are.  Any request it
    sends carries the selected bird and the trimmed caption, which is
    not empty and neither starts nor ends with white space.  It
    announces success only when the server answered with the post,
    which then heads the feed while the dialog is closed and emptied;
    after any failure the dialog keeps what was typed. *)
Theorem submitPost_sends_trimmed (authToken : option string)
    (response : Js.completion (option Post)) (d : Dialog)
    (communityFeed : list Post) :
  let '(d', feed, shown, sent) :=
    submitPost authToken response d communityFeed in
  (Forall (λ c, isWhiteSpace c = true) (codeUnits (newPostCaption d))
   ∨ selectedBirdId d = "" →
     sent = [] ∧ feed = communityFeed ∧ d' = d
     ∧ ∃ message, shown = [ShowError message])
  ∧ (∀ birdId caption location token,
       CommunityPostRequest birdId caption location token ∈ sent →
       birdId = selectedBirdId d ∧ birdId ≠ ""
       ∧ caption = trim (newPostCaption d) ∧ caption ≠ ""
       ∧ location = None
       ∧ ∀ c, head (codeUnits caption) = Some c
              ∨ last (codeUnits caption) = Some c →
              isWhiteSpace c = false)
  ∧ ((shown = [ShowSuccess "Post shared with the community!"]
      ∧ ∃ post, response = Js.Returned (Some post)
                ∧ feed = post :: communityFeed
                ∧ d' = {| showCreatePost := false; newPostCaption := "";
                          selectedBirdId := "" |})
     ∨ ((∃ message, shown = [ShowError message])
        ∧ feed = communityFeed ∧ d' = d)).
Proof.
  unfold submitPost.
  destruct (decide (trim (newPostCaption d) = "")) as [Hb | Hb].
  { split; [by eauto |]. split; [by intros ???? ?%elem_of_nil |].
    right. by eauto. }
  destruct (decide (selectedBirdId d = "")) as [Hs | Hs].
  { split; [by eauto |]. split; [by intros ???? ?%elem_of_nil |].
    right. by eauto. }
  assert (Hnot : ¬ (Forall (λ c, isWhiteSpace c = true)
                      (codeUnits (newPostCaption d))
                    ∨ selectedBirdId d = "")).
  { rewrite <- trim_blank. tauto. }
  unfold createCommunityPost. destruct (noToken authToken).
  { split; [done |]. split; [by intros ???? ?%elem_of_nil |].
    right. cbn. by eauto. }
  assert (Hsent : ∀ birdId caption location token,
            CommunityPostRequest birdId caption location token
            ∈ [CommunityPostRequest (selectedBirdId d)
                 (trim (newPostCaption d)) None (bearer authToken)] →
            birdId = selectedBirdId d ∧ birdId ≠ ""
            ∧ caption = trim (newPostCaption d) ∧ caption ≠ ""
            ∧ location = None
            ∧ ∀ c, head (codeUnits caption) = Some c
                   ∨ last (codeUnits caption) = Some c →
                   isWhiteSpace c = false).
  { intros b c l t Hin. apply list_elem_of_singleton in Hin.
    injection Hin as -> -> -> ->. repeat split; try done.
    apply trim_ends. }
  destruct response as [[post |] | message]; cbn zeta iota beta.
  - split; [done |]. split; [exact Hsent |]. left. by eauto.
  - split; [done |]. split; [exact Hsent |]. right. by eauto.
  - split; [done |]. split; [exact Hsent |]. right. by eauto.
Qed.

End Posting.

(** ** The server's refusal, and the daily cap on the camera screen *)

Section Refusals.
Context `{LocalCalendar}.




(** The gate is open only below three scans. *)
Lemma getRemainingScans_open_inv (u : User) (now : Z) :
  isFree (Some u) → getRemainingScans (Some u) now ≠ 0 →
  todayCount (Some u) (toLocalDay now) < 3.
Proof. intros Hf. rewrite getRemainingScans_free by done. lia. Qed.

Lemma handle_capped (day : Z) (app : App) (ev : Event) :
  eventOnDay day ev → DailyCap.capped day app → DailyCap.capped day (handle app ev).1.
Proof.
  intros Hd (u & Hu & Hf & Hc & Hp).
  destruct ev as [now shot | now picked | env |]; cbn [handle].
  - unfold takePicture. destruct (cameraReady app); cbn [negb];
      [| by exists u].
    case_decide as Hg; [by exists u |].
    rewrite Hu in Hg. apply getRemainingScans_open_inv in Hg; [| done].
    cbn in Hd. rewrite Hd in Hg.
    destruct shot; [| by exists u]. exists u. cbn. by repeat split.
  - unfold pickImage. case_decide as Hg; [by exists u |].
    rewrite Hu in Hg. apply getRemainingScans_open_inv in Hg; [| done].
    cbn in Hd. rewrite Hd in Hg.
    destruct picked; [| by exists u ..]. exists u. cbn. by repeat split.
  - unfold identifyBirdPhoto.
    destruct (capturedImage app) as [uri |] eqn:Hi; [| by exists u].
    specialize (Hp ltac:(done)).
    pose proof (identifyBird_cases (authToken app) (user app) (user app) uri env)
      as Hcases.
    destruct (identifyBird _ _ _ _ _) as [[c after] sent].
    destruct Hcases as [[[-> Hret] | [-> Hret]] _]; destruct c; try done.
    + case_match; exists u; cbn; rewrite Hi; by repeat split.
    + rewrite Hu. destruct (countScan_cases u env) as [-> | ->].
      * exists (counted u env). cbn [user withUser withImage capturedImage fst].
        split; [done |].
        split; [unfold isFree; by rewrite counted_tier |].
        rewrite (counted_todayCount _ _ _ Hd). split; [lia | done].
      * exists u. cbn. by repeat split.
  - exists u. cbn. by repeat split.
Qed.

(** X20.  On the camera screen a free user never gets past three
    counted scans in a calendar day, whatever is tapped in whatever
    order and whatever the camera, the library, the server and the
    store answer: starting with a count of 3 or below and no image
    pending, the count stored for the day is still 3 or below after
    any sequence of events of that day, and the user is still free. *)
Theorem daily_cap_holds (u : User) (day : Z) (evs : list Event) :
  isFree (Some u) → todayCount (Some u) day ≤ 3 →
  Forall (eventOnDay day) evs →
  ∀ app : App,
    user app = Some u → capturedImage app = None →
    todayCount (user (run app evs).1) day ≤ 3
    ∧ isFree (user (run app evs).1).
Proof.
  intros Hf Hc Hevs app Hu Hi.
  assert (Hcap : DailyCap.capped day app).
  { exists u. rewrite Hi. by repeat split. }
  clear Hu Hi Hf Hc. revert app Hcap.
  induction Hevs as [| ev evs Hd _ IH]; intros app Hcap.
  - cbn. destruct Hcap as (u' & -> & ? & ? & _). done.
  - cbn [run]. pose proof (handle_capped day app ev Hd Hcap) as Hcap1.
    destruct (handle app ev) as [app1 out1]. cbn [fst] in Hcap1.
    specialize (IH app1 Hcap1). by destruct (run app1 evs) as [app2 out2].
Qed.

End Refusals.

(** ** Upgrading *)

Section Upgrade.
Import PremiumUpsellScreen.
Context `{LocalCalendar}.

(** X21.  When the server confirms a subscription to a premium plan
    and the store accepts the new user data, the user is premium from
    then on: every listed feature is granted and scans are unlimited,
    while the scan ledger is what it was.  When the store rejects, the
    welcome is shown all the same and the user is unchanged.  When the
    subscription is not confirmed the user is unchanged and an error
    is shown. *)
Theorem handleSubscribe_upgrades (typeError selectedPlan feature : string)
    (u : User) (response : Js.completion (option string)) (stored : bool)
    (now day : Z) :
  selectedPlan = "premium_monthly" ∨ selectedPlan = "premium_yearly" →
  feature ∈ enumeratedFeatures →
  let confirmed := ∃ subscription_id,
    response = Js.Returned (Some subscription_id) ∧ subscription_id ≠ "" in
  let '(after, acts) :=
    handleSubscribe typeError (Some u) selectedPlan response stored (Some u) in
  (confirmed → stored = true →
     isPremium after
     ∧ canAccessPremiumFeature after feature = Js.Bool true
     ∧ getRemainingScans after now = -1
     ∧ todayCount after day = todayCount (Some u) day)
  ∧ (confirmed →
       acts = [SubscribeRequest selectedPlan "mock_payment_method";
               Ui (ShowSuccess "Welcome to BirdScope Premium!"); GoBack]
       ∧ (stored = false → after = Some u))
  ∧ (¬ confirmed →
       after = Some u
       ∧ ∃ message, acts = [SubscribeRequest selectedPlan "mock_payment_method";
                            Ui (ShowError message)]).
Proof.
  intros Hplan Hl. cbn zeta. unfold handleSubscribe.
  destruct response as [[sid |] | message].
  - case_decide as Hs.
    + split; [by intros (? & [= <-] & ?) |].
      split; [by intros (? & [= <-] & ?) |]. intros _. by eauto.
    + unfold updateUser. split; [| split].
      * intros _ ->. cbn iota.
        assert (Hp : isPremium (Some (spread (Some u)
                        {| set_subscription_plan := Some selectedPlan;
                           set_scans_today := None;
                           set_last_scan_date := None |}))).
        { unfold isPremium, checkSubscriptionStatus. cbn.
          destruct Hplan as [-> | ->]; [by left | by right]. }
        split; [exact Hp |].
        pose proof (isPremium_not_free _ Hp) as Hnf. split; [| split].
        -- unfold canAccessPremiumFeature. rewrite decide_False by done.
           unfold Js.get. by rewrite (premiumFeatures_listed _ Hl).
        -- by apply getRemainingScans_not_free.
        -- done.
      * intros _. split; [done |]. by intros ->.
      * intros Hn. destruct Hn. by exists sid.
  - split; [by intros (? & [=] & ?) |]. split; [by intros (? & [=] & ?) |].
    intros _. by eauto.
  - split; [by intros (? & [=] & ?) |]. split; [by intros (? & [=] & ?) |].
    intros _. by eauto.
Qed.

End Upgrade.

(** ** The properties at concrete inputs *)

Lemma signIn_survives_relaunch_witness :
  let u := newUser (Some "free") in
  AuthSession.login ∈ AuthSession.signIns
  ∧ "token-1" ≠ ""
  ∧ (let '(outcome, a', s') :=
       AuthSession.login (AuthSession.Answered (Some "token-1") (Some u))
         AuthSession.Done AuthSession.Done AuthSession.mounted
         AuthSession.emptyStore in
     AuthSession.success outcome = true
     ∧ AuthSession.user a' = Some u
     ∧ AuthSession.authToken a' = Some "token-1"
     ∧ AuthSession.isAuthenticated a' = true
     ∧ AuthSession.relaunch s' = a').
Proof.
  intros u.
  assert (Hf : AuthSession.login ∈ AuthSession.signIns) by repeat constructor.
  assert (Ht : "token-1" ≠ "") by done.
  split; [exact Hf |]. split; [exact Ht |].
  exact (signIn_survives_relaunch AuthSession.login "token-1" u
           AuthSession.mounted AuthSession.emptyStore Hf Ht).
Defined.

Lemma signIn_failure_keeps_session_witness :
  let u := newUser (Some "free") in
  let a := {| AuthSession.user := Some u; AuthSession.authToken := Some "old";
              AuthSession.isLoading := false |} in
  AuthSession.register ∈ AuthSession.signIns
  ∧ (let '(outcome, a', s') :=
       AuthSession.register (AuthSession.Refused "") AuthSession.Done
         AuthSession.Done a AuthSession.emptyStore in
     (AuthSession.success outcome = true ↔
        ∃ token u', AuthSession.Refused "" = AuthSession.Answered (Some token) (Some u')
                    ∧ token ≠ "" ∧ AuthSession.Done = AuthSession.Done
                    ∧ AuthSession.Done = AuthSession.Done)
     ∧ (AuthSession.success outcome = false →
          AuthSession.user a' = AuthSession.user a
          ∧ AuthSession.authToken a' = AuthSession.authToken a
          ∧ ∃ message, AuthSession.error outcome = Some message ∧ message ≠ "")
     ∧ AuthSession.isLoading a' = false).
Proof.
  intros u a.
  assert (Hf : AuthSession.register ∈ AuthSession.signIns)
    by repeat constructor.
  split; [exact Hf |].
  exact (signIn_failure_keeps_session AuthSession.register
           (AuthSession.Refused "") AuthSession.Done AuthSession.Done a
           AuthSession.emptyStore Hf).
Defined.

Lemma signIn_half_written_witness :
  let previous := newUser (Some "premium_yearly") in
  let u := newUser (Some "free") in
  let s := {| AuthSession.authTokenItem := Some "old";
              AuthSession.userDataItem := Some (AuthSession.Json previous) |} in
  AuthSession.googleLogin ∈ AuthSession.signIns
  ∧ "new" ≠ ""
  ∧ AuthSession.userDataItem s = Some (AuthSession.Json previous)
  ∧ (let '(outcome, a', s') :=
       AuthSession.googleLogin (AuthSession.Answered (Some "new") (Some u))
         AuthSession.Done (AuthSession.Rejects "disk full")
         AuthSession.mounted s in
     AuthSession.success outcome = false
     ∧ AuthSession.user a' = AuthSession.user AuthSession.mounted
     ∧ AuthSession.authToken a' = AuthSession.authToken AuthSession.mounted
     ∧ AuthSession.relaunch s'
       = {| AuthSession.user := Some previous;
            AuthSession.authToken := Some "new";
            AuthSession.isLoading := false |}).
Proof.
  intros previous u s.
  assert (Hf : AuthSession.googleLogin ∈ AuthSession.signIns)
    by repeat constructor.
  assert (Ht : "new" ≠ "") by done.
  split; [exact Hf |]. split; [exact Ht |]. split; [reflexivity |].
  exact (signIn_half_written AuthSession.googleLogin "new" "disk full" u
           previous AuthSession.mounted s Hf Ht eq_refl).
Defined.

Lemma badge_and_gates_witness :
  let u := newUser (Some "trial") in
  "full_audio" ∈ enumeratedFeatures
  ∧ ¬ isFree (Some u) ∧ ¬ isPremium (Some u)
  ∧ SettingsScreen.name (SettingsScreen.getSubscriptionDisplay (Some u))
    = "Free Plan"
  ∧ Api.formatPlanName (checkSubscriptionStatus (Some u)) = "Unknown Plan"
  ∧ canAccessPremiumFeature (Some u) "full_audio" = Js.Bool true
  ∧ @getRemainingScans utc (Some u) 20 = -1.
Proof.
  intros u.
  assert (Hl : "full_audio" ∈ enumeratedFeatures)
    by (apply (bool_decide_unpack _); exact I).
  assert (Hf : ¬ isFree (Some u)) by (by intros [=]).
  assert (Hp : ¬ isPremium (Some u)) by (by intros [[=] | [=]]).
  split; [exact Hl |]. split; [exact Hf |]. split; [exact Hp |].
  exact (proj2 (proj2 (@badge_and_gates utc u "full_audio" 20 Hl)) Hf Hp).
Defined.


Lemma daily_cap_holds_witness :
  let u := userWith (Some "free") 2 10 in
  let evs := [ TakePicture 20 (Some "3.jpg"); IdentifyBirdPhoto (okAt 30);
               PickImage 40 (Asset "4.jpg"); IdentifyBirdPhoto (okAt 50);
               RetakePicture; TakePicture 60 None ] in
  isFree (Some u)
  ∧ @todayCount utc (Some u) 0 ≤ 3
  ∧ Forall (@eventOnDay utc 0) evs
  ∧ @todayCount utc (user (@run utc (signedIn u) evs).1) 0 ≤ 3
  ∧ isFree (user (@run utc (signedIn u) evs).1).
Proof.
  intros u evs.
  assert (Hc : @todayCount utc (Some u) 0 ≤ 3) by (by vm_compute).
  assert (He : Forall (@eventOnDay utc 0) evs) by (by repeat constructor).
  split; [reflexivity |]. split; [exact Hc |]. split; [exact He |].
  exact (@daily_cap_holds utc u 0 evs eq_refl Hc He (signedIn u)
           eq_refl eq_refl).
Defined.

Lemma handleSubscribe_upgrades_witness :
  let u := userWith (Some "free") 2 10 in
  ("premium_yearly" = "premium_monthly" ∨ "premium_yearly" = "premium_yearly")
  ∧ "migration_maps" ∈ enumeratedFeatures
  ∧ (let '(after, acts) :=
       PremiumUpsellScreen.handleSubscribe "null has no properties" (Some u)
         "premium_yearly" (Js.Returned (Some "sub_1")) true (Some u) in
     isPremium after
     ∧ canAccessPremiumFeature after "migration_maps" = Js.Bool true
     ∧ @getRemainingScans utc after 20 = -1
     ∧ @todayCount utc after 0 = @todayCount utc (Some u) 0).
Proof.
  intros u.
  assert (Hp : "premium_yearly" = "premium_monthly"
               ∨ "premium_yearly" = "premium_yearly") by (by right).
  assert (Hl : "migration_maps" ∈ enumeratedFeatures)
    by (apply (bool_decide_unpack _); exact I).
  split; [exact Hp |]. split; [exact Hl |].
  apply (proj1 (@handleSubscribe_upgrades utc "null has no properties"
                  "premium_yearly" "migration_maps" u
                  (Js.Returned (Some "sub_1")) true 20 0 Hp Hl)).
  - by exists "sub_1".
  - reflexivity.
Defined.

(** ** Writes that overlap *)

Section StaleWrites.
Import PremiumUpsellScreen.
Context `{LocalCalendar}.

(** X22.  [updateUser] writes the user of the render that created the
    caller, with the caller's changes on top.  So of two actions
    started from the same render the one that finishes last wins
    whole: an identification that was under way while the user
    upgraded leaves the user free again, with the scan counted; an
    upgrade that was under way while a scan was counted leaves the
    user premium with the earlier count. *)
Theorem last_write_wins (typeError imageUri subscription_id : string)
    (u : User) (authToken : option string) (env : Env) (day : Z) :
  isFree (Some u) → noToken authToken = false → succeeds env →
  envOnDay day env → subscription_id ≠ "" →
  let upgrade current :=
    (handleSubscribe typeError (Some u) "premium_monthly"
       (Js.Returned (Some subscription_id)) true current).1 in
  let scan current :=
    (identifyBird authToken (Some u) imageUri env current).1.2 in
  (isPremium (upgrade (Some u))
   ∧ isFree (scan (upgrade (Some u)))
   ∧ todayCount (scan (upgrade (Some u))) day = todayCount (Some u) day + 1)
  ∧ (todayCount (scan (Some u)) day = todayCount (Some u) day + 1
     ∧ isPremium (upgrade (scan (Some u)))
     ∧ todayCount (upgrade (scan (Some u))) day = todayCount (Some u) day).
Proof.
  intros Hf Ht [[r Hr] Hs] Hd Hid. cbv zeta beta.
  assert (Hscan : ∀ current,
            (identifyBird authToken (Some u) imageUri env current).1.2
            = Some (counted u env)).
  { intros current. rewrite (identifyBird_result _ _ _ _ _ r Ht Hr). cbn.
    by apply countScan_stored. }
  assert (Hup : ∀ current,
            (handleSubscribe typeError (Some u) "premium_monthly"
               (Js.Returned (Some subscription_id)) true current).1
            = Some (spread (Some u)
                      {| set_subscription_plan := Some "premium_monthly";
                         set_scans_today := None;
                         set_last_scan_date := None |})).
  { intros current. unfold handleSubscribe. by rewrite decide_False. }
  rewrite !Hscan, !Hup. split; [split; [by left | split] | split; [| split]].
  - unfold isFree. by rewrite counted_tier.
  - by apply counted_todayCount.
  - by apply counted_todayCount.
  - by left.
  - done.
Qed.

End StaleWrites.

Lemma last_write_wins_witness :
  let u := userWith (Some "free") 1 10 in
  let upgrade current :=
    (PremiumUpsellScreen.handleSubscribe "null has no properties" (Some u)
       "premium_monthly" (Js.Returned (Some "sub_1")) true current).1 in
  let scan current :=
    (@identifyBird utc (Some "token") (Some u) "2.jpg" (okAt 20) current).1.2 in
  isFree (Some u)
  ∧ noToken (Some "token") = false
  ∧ succeeds (okAt 20)
  ∧ @envOnDay utc 0 (okAt 20)
  ∧ "sub_1" ≠ ""
  ∧ isPremium (upgrade (Some u))
  ∧ isFree (scan (upgrade (Some u)))
  ∧ @todayCount utc (scan (upgrade (Some u))) 0 = 2.
Proof.
  intros u upgrade scan.
  assert (Hs : succeeds (okAt 20)) by (split; [by exists robin | done]).
  assert (Hd : @envOnDay utc 0 (okAt 20)) by done.
  assert (Hid : "sub_1" ≠ "") by done.
  split; [reflexivity |]. split; [reflexivity |]. split; [exact Hs |].
  split; [exact Hd |]. split; [exact Hid |].
  exact (proj1 (@last_write_wins utc "null has no properties" "2.jpg" "sub_1"
                  u (Some "token") (okAt 20) 0 eq_refl eq_refl Hs Hd Hid)).
Defined.

(** A few values, for the reader. *)
Example isValidEmail_values :
  Api.isValidEmail "ann.lee@mail.example.org" = true
  ∧ Api.isValidEmail "ann@example" = false
  ∧ Api.isValidEmail "ann lee@example.org" = false
  ∧ Api.isValidEmail "ann@@example.org" = false.
Proof. by vm_compute. Qed.

Example formatTimeAgo_values :
  @CommunityFeedScreen.formatTimeAgo Samples.plainEngine 100000000 99000000
  = "16m ago"
  ∧ @CommunityFeedScreen.formatTimeAgo Samples.plainEngine 360000000 0
    = "4d ago"
  ∧ @CommunityFeedScreen.formatTimeAgo Samples.plainEngine 1000 2000
    = "Just now".
Proof. by vm_compute. Qed.

Example filterAndSortSightings_values :
  BirdLists.sighting_id
  <$> @SightingsList.filterAndSortSightings Samples.plainEngine
        [ Samples.sighting "1" "robin" 10;
          Samples.sighting "2" "wren" 700000000;
          Samples.sighting "3" "robin" 650000000 ]
        "" "this_week" "date" 700000001
  = ["2"; "3"].
Proof. by vm_compute. Qed.

Example openFeed_values :
  BirdLists.post_id
  <$> (BirdLists.openFeed (BirdLists.page [Samples.post "1" 0])
         [BirdLists.page [Samples.post "2" 3]; Js.Thrown "offline";
          BirdLists.page [Samples.post "3" 1]]
         [Samples.post "9" 9]).1
  = ["1"; "2"; "3"].
Proof. by vm_compute. Qed.
